(** * cordas_cria_features: spectral feature extraction for guitar-string samples

    A shallow embedding of [cordas_cria_features.py] and the properties of
    its dataset-building pipeline.

    Conventions of the embedding.
    - NumPy floating-point arrays are lists of real numbers ([R]): rounding,
      NaN and infinities are outside the model.
    - Python exceptions are values: a pure helper returns [result A], the
      script itself runs in [prog A], which also records what was printed
      and what was saved.
    - The librosa routines that decode and transform audio ([load],
      [effects.trim], [stft], [feature.melspectrogram], [mel_frequencies])
      are fields of a record [librosa]; the file system is the predicate
      [isfile].  [librosa.power_to_db] and the NumPy primitives the script
      calls are written out.
    - [print] and [np.save] always succeed: the console and the output
      directory are taken to be writable. *)

From Stdlib Require Import String Ascii DecimalString.
From Stdlib Require Import ZArith Reals Lra Lia List Bool Arith Sorted.
Import ListNotations.

Open Scope string_scope.
Open Scope R_scope.

(** ** Exceptions and the two monads *)

Inductive exn : Type :=
| ValueError (msg : string)     (* raised by NumPy *)
| LibrosaError (msg : string).  (* raised while decoding or transforming audio *)

Inductive result (A : Type) : Type :=
| Ok (a : A)
| Raise (e : exn).

Arguments Ok {A} a.
Arguments Raise {A} e.

Definition rbind {A B : Type} (r : result A) (f : A -> result B) : result B :=
  match r with
  | Ok a => f a
  | Raise e => Raise e
  end.

Declare Scope result_scope.
Delimit Scope result_scope with result.

Notation "x <- c1 ;; c2" := (rbind c1 (fun x => c2))
  (at level 61, c1 at next level, right associativity) : result_scope.
Notation "' pat <- c1 ;; c2" := (rbind c1 (fun x => match x with pat => c2 end))
  (at level 61, pat pattern, c1 at next level, right associativity) : result_scope.

(** ** Numeric primitives *)

(** Complex STFT coefficients. *)
Record complex : Type := mkC { Re : R; Im : R }.

(** [np.abs] on a complex number. *)
Definition Cabs (z : complex) : R := sqrt (Re z * Re z + Im z * Im z).

(** [np.log10]. *)
Definition log10 (x : R) : R := ln x / ln 10.

(** [np.abs] on a real array. *)
Definition np_abs (a : list R) : list R := map Rabs a.

(** [np.max] of a one-dimensional array: a reduction without identity,
    so an empty array raises [ValueError]. *)
Definition np_max (a : list R) : result R :=
  match a with
  | [] => Raise (ValueError "zero-size array to reduction operation maximum which has no identity")
  | x :: t => Ok (fold_left Rmax t x)
  end.

Definition np_sum (a : list R) : R := fold_left Rplus a 0.

(** [np.mean(M, axis=1)]: one mean per row. *)
Definition np_mean_axis1 (M : list (list R)) : list R :=
  map (fun row => np_sum row / INR (length row)) M.

(** [np.linspace(start, stop, num)] with the default [endpoint=True]. *)
Definition np_linspace (start stop : R) (num : nat) : list R :=
  let div := (num - 1)%nat in
  let delta := stop - start in
  if (0 <? div)%nat then
    let step := delta / INR div in
    map (fun i => if (i =? num - 1)%nat then stop else INR i * step + start)
        (seq 0 num)
  else
    map (fun i => INR i * delta + start) (seq 0 num).

(** [librosa.power_to_db(S, ref=np.max, amin=amin, top_db=top_db)] on a
    real one-dimensional [S]: the reference is [np.max(S)], both power and
    reference are floored at [amin], and the result is floored at [top_db]
    below its own maximum. *)
Definition power_to_db (S : list R) (amin top_db : R) : result (list R) :=
  (ref_value <- np_max S ;;
   let log_spec := map (fun s => 10 * log10 (Rmax amin s)) S in
   let log_spec := map (fun v => v - 10 * log10 (Rmax amin ref_value)) log_spec in
   m <- np_max log_spec ;;
   Ok (map (fun v => Rmax v (m - top_db)) log_spec))%result.

(** Defaults of [librosa.power_to_db]. *)
Definition amin_default : R := 1e-10.
Definition top_db_default : R := 80.

(** ** Configuration *)

Definition SR : Z := 22050.
Definition N_FFT : nat := 2048.
Definition HOP_LENGTH : nat := 512.
Definition N_MELS : nat := 40.
Definition BASE_DIR : string := "/content/drive/MyDrive/cordas_amostras".

(** ** The librosa interface *)

Record librosa : Type := {
  (* librosa.load(path, sr=sr) *)
  load : string -> Z -> result (list R * Z);
  (* librosa.effects.trim(y, top_db=top_db) *)
  trim : list R -> R -> result (list R * (nat * nat));
  (* librosa.stft(y, n_fft=n_fft, hop_length=hop_length, window='hann') *)
  stft : list R -> nat -> nat -> result (list (list complex));
  (* librosa.feature.melspectrogram(y=y, sr=sr, n_fft, hop_length, n_mels, power) *)
  melspectrogram : list R -> Z -> nat -> nat -> nat -> R -> result (list (list R));
  (* librosa.mel_frequencies(n_mels=n_mels, fmin=fmin, fmax=fmax) *)
  mel_frequencies : nat -> R -> R -> list R
}.

(** What the script relies on from librosa: the STFT of any signal has
    [1 + n_fft/2] rows, a Mel spectrogram has [n_mels] rows, and
    [mel_frequencies] returns [n_mels] values. *)
Record librosa_shapes (L : librosa) : Prop := {
  stft_rows : forall y n_fft hop X,
    stft L y n_fft hop = Ok X -> length X = (1 + n_fft / 2)%nat;
  mel_rows : forall y sr n_fft hop n_mels p S,
    melspectrogram L y sr n_fft hop n_mels p = Ok S -> length S = n_mels;
  mel_frequencies_len : forall n fmin fmax,
    length (mel_frequencies L n fmin fmax) = n
}.

Section Pipeline.

Variable L : librosa.

(** ** Helper functions of the script *)

Definition carregar_limpar_audio (path : string) (sr : Z) (top_db : R)
  : result (list R * Z) :=
  ('(y, sr) <- load L path sr ;;
   '(y_trim, _) <- trim L y top_db ;;
   m <- np_max (np_abs y_trim) ;;
   let max_abs := m + 1e-9 in
   let y_trim := map (fun v => v / max_abs) y_trim in
   Ok (y_trim, sr))%result.

Definition espectro_fft_medio (y : list R) (sr : Z) (n_fft hop_length : nat)
  : result (list R * list R) :=
  (X <- stft L y n_fft hop_length ;;
   let mag := map (map (fun z => Cabs z ^ 2)) X in
   let mag_mean := np_mean_axis1 mag in
   mag_db <- power_to_db mag_mean amin_default top_db_default ;;
   let freqs := np_linspace 0 (IZR sr / 2) (length mag_mean) in
   Ok (freqs, mag_db))%result.

Definition espectro_mel_medio (y : list R) (sr : Z) (n_fft hop_length n_mels : nat)
  : result (list R * list R) :=
  (S_mel <- melspectrogram L y sr n_fft hop_length n_mels 2 ;;
   let S_mel_mean := np_mean_axis1 S_mel in
   S_mel_db <- power_to_db S_mel_mean amin_default top_db_default ;;
   let mel_freqs := mel_frequencies L n_mels 0 (IZR sr / 2) in
   Ok (mel_freqs, S_mel_db))%result.

(** ** Arrays, console and files *)

(** The result of [np.array]: element type, shape and row-major data. *)
Inductive ndarray : Type :=
| Float64Array (shape : list nat) (data : list R)
| Int64Array (shape : list nat) (data : list nat).

Definition shape (a : ndarray) : list nat :=
  match a with
  | Float64Array sh _ => sh
  | Int64Array sh _ => sh
  end.

(** [np.array] on a list of one-dimensional float arrays.  An empty list
    gives the one-dimensional empty array; rows of one common length give a
    matrix; rows of different lengths are rejected. *)
Definition np_array_rows (rows : list (list R)) : result ndarray :=
  match rows with
  | [] => Ok (Float64Array [0%nat] [])
  | r :: rest =>
      if forallb (fun r' => (length r' =? length r)%nat) rest
      then Ok (Float64Array [length rows; length r] (concat rows))
      else Raise (ValueError "setting an array element with a sequence. The requested array has an inhomogeneous shape")
  end.

(** [np.array] on a list of Python integers; the empty list has no element
    to take a type from and gives an empty float array. *)
Definition np_array_ints (l : list nat) : ndarray :=
  match l with
  | [] => Float64Array [0%nat] []
  | _ :: _ => Int64Array [length l] l
  end.

(** What the run does to the outside world. *)
Inductive event : Type :=
| Print (line : string)
| Save (file : string) (arr : ndarray).

(** A computation of the script: the events so far and either a value or
    the uncaught exception that stopped it. *)
Definition prog (A : Type) : Type := (list event * result A)%type.

Definition ret {A : Type} (a : A) : prog A := ([], Ok a).

Definition bind {A B : Type} (p : prog A) (f : A -> prog B) : prog B :=
  match p with
  | (tr, Ok a) => let (tr', r) := f a in ((tr ++ tr')%list, r)
  | (tr, Raise e) => (tr, Raise e)
  end.

Definition lift {A : Type} (r : result A) : prog A := ([], r).

Definition print (line : string) : prog unit := ([Print line], Ok tt).

Definition np_save (file : string) (arr : ndarray) : prog unit :=
  ([Save file arr], Ok tt).

Declare Scope prog_scope.
Delimit Scope prog_scope with prog.

Notation "x <- c1 ;; c2" := (bind c1 (fun x => c2))
  (at level 61, c1 at next level, right associativity) : prog_scope.
Notation "' pat <- c1 ;; c2" := (bind c1 (fun x => match x with pat => c2 end))
  (at level 61, pat pattern, c1 at next level, right associativity) : prog_scope.
Notation "c1 ;; c2" := (bind c1 (fun _ => c2))
  (at level 61, right associativity) : prog_scope.

(** A [for] loop threading the variables it assigns. *)
Fixpoint for_each {A S : Type} (xs : list A) (body : S -> A -> prog S) (s : S)
  : prog S :=
  match xs with
  | [] => ret s
  | x :: xs' => bind (body s x) (for_each xs' body)
  end.

(** [range(a, b)]. *)
Definition range (a b : nat) : list nat := seq a (b - a).

(** [str(n)] for a non-negative integer. *)
Definition str (n : nat) : string := NilEmpty.string_of_uint (Nat.to_uint n).

(** [repr] of a shape tuple, as [print] shows it. *)
Definition repr_shape (sh : list nat) : string :=
  match sh with
  | [a] => "(" ++ str a ++ ",)"
  | _ => "(" ++ String.concat ", " (map str sh) ++ ")"
  end.

Definition startswith_sep (s : string) : bool :=
  match s with
  | String c _ => Ascii.eqb c "/"
  | EmptyString => false
  end.

Fixpoint endswith_sep (s : string) : bool :=
  match s with
  | EmptyString => false
  | String c EmptyString => Ascii.eqb c "/"
  | String _ t => endswith_sep t
  end.

(** [os.path.join(a, b)] on POSIX. *)
Definition os_path_join (a b : string) : string :=
  if startswith_sep b then b
  else if (a =? "")%string || endswith_sep a then a ++ b
  else a ++ "/" ++ b.

(** ** Main loop *)

(** The three module-level lists. *)
Record dataset : Type := mkDataset {
  X_fft_list : list (list R);
  X_mel_list : list (list R);
  y_labels : list nat
}.

Definition filename (n m : nat) : string :=
  "corda" ++ str n ++ "_" ++ str m ++ ".wav".

Definition filepath (n m : nat) : string :=
  os_path_join BASE_DIR (filename n m).

Definition aviso (path : string) : string :=
  "AVISO: arquivo não encontrado -> " ++ path.

Definition processando (path : string) : string :=
  "Processando " ++ path ++ " ...".

Variable isfile : string -> bool.

(** One iteration of the inner loop. *)
Definition loop_body (d : dataset) (n m : nat) : prog dataset :=
  (if negb (isfile (filepath n m)) then
     print (aviso (filepath n m)) ;;
     ret d
   else
     print (processando (filepath n m)) ;;
     '(y, sr) <- lift (carregar_limpar_audio (filepath n m) SR 40) ;;
     '(freqs_fft, fft_db) <- lift (espectro_fft_medio y sr N_FFT HOP_LENGTH) ;;
     '(mel_freqs, mel_db) <- lift (espectro_mel_medio y sr N_FFT HOP_LENGTH N_MELS) ;;
     ret {| X_fft_list := (X_fft_list d ++ [fft_db])%list;
            X_mel_list := (X_mel_list d ++ [mel_db])%list;
            y_labels := (y_labels d ++ [n])%list |})%prog.

Definition main_loop : prog dataset :=
  for_each (range 1 7)
    (fun d n => for_each (range 1 31) (fun d m => loop_body d n m) d)
    {| X_fft_list := []; X_mel_list := []; y_labels := [] |}.

(** The whole script: the loop, the conversion to arrays, the report and
    the three files. *)
Definition script : prog unit :=
  (d <- main_loop ;;
   X_fft <- lift (np_array_rows (X_fft_list d)) ;;
   X_mel <- lift (np_array_rows (X_mel_list d)) ;;
   let y_labels := np_array_ints (y_labels d) in
   print "Formatos das matrizes:" ;;
   print ("X_fft:" ++ " " ++ repr_shape (shape X_fft)) ;;
   print ("X_mel:" ++ " " ++ repr_shape (shape X_mel)) ;;
   print ("y_labels:" ++ " " ++ repr_shape (shape y_labels)) ;;
   np_save "X_fft.npy" X_fft ;;
   np_save "X_mel.npy" X_mel ;;
   np_save "y_labels.npy" y_labels ;;
   print "Arquivos salvos: X_fft.npy, X_mel.npy, y_labels.npy")%prog.

End Pipeline.

Close Scope string_scope.

(** ** Vocabulary of the properties *)

(** [m] is the largest element of the array [a]. *)
Definition is_max (m : R) (a : list R) : Prop :=
  In m a /\ forall v, In v a -> v <= m.

(** The time-averaged power per frequency bin of an STFT matrix, as
    [espectro_fft_medio] computes it before the decibel conversion. *)
Definition potencia_media (X : list (list complex)) : list R :=
  np_mean_axis1 (map (map (fun z => Cabs z ^ 2)) X).

(** The decibel conversion that [power_to_db] carries out with the default
    [amin] and [top_db] and the array's own maximum [ref] as reference. *)
Definition db_of (ref p : R) : R :=
  Rmax (10 * log10 (Rmax amin_default p) - 10 * log10 (Rmax amin_default ref))
       (0 - top_db_default).

(** The same conversion without floor: [10*log10(power / reference)]. *)
Definition db_log_ratio (ref p : R) : R := 10 * log10 (p / ref).

(** The reading of the decibel conversion as a plain log ratio, for the
    linear summarizer on the signal [y]. *)
Definition fft_db_is_log_ratio (L : librosa) (y : list R) (sr : Z) : Prop :=
  forall X freqs db ref,
    stft L y N_FFT HOP_LENGTH = Ok X ->
    np_max (potencia_media X) = Ok ref ->
    espectro_fft_medio L y sr N_FFT HOP_LENGTH = Ok (freqs, db) ->
    db = map (db_log_ratio ref) (potencia_media X).

(** ** A small instance of the librosa interface

    A decoder that yields a three-sample clip whatever the path, a trim
    that keeps everything, and transforms with the right number of rows and
    a single frame: the first STFT bin has power 1, every other bin power
    [1e-10] (100 dB below the peak). *)
Definition sinal_exemplo : list R := [0.5; -1; 0.25].

Definition librosa_exemplo : librosa := {|
  load := fun _ sr => Ok (sinal_exemplo, sr);
  trim := fun y _ => Ok (y, (0%nat, length y));
  stft := fun _ n_fft _ => Ok ([mkC 1 0] :: repeat [mkC 1e-5 0] (n_fft / 2));
  melspectrogram := fun _ _ _ _ n_mels _ => Ok (repeat [1] n_mels);
  mel_frequencies := fun n fmin fmax => np_linspace fmin fmax n
|}.

(** ** Vocabulary of the main loop *)

(** The 180 candidate names in the order the two loops visit them. *)
Definition candidatos : list (nat * nat) :=
  flat_map (fun n => map (pair n) (range 1 31)) (range 1 7).

Definition caminho (c : nat * nat) : string := filepath (fst c) (snd c).

(** The candidates whose file exists, in visiting order. *)
Definition presentes (isfile : string -> bool) : list (nat * nat) :=
  filter (fun c => isfile (caminho c)) candidatos.

(** The two feature vectors the loop body derives from the file of
    candidate [(n, m)]: steps 1 to 3 of the body. *)
Definition extrair (L : librosa) (n m : nat) : result (list R * list R) :=
  ('(y, sr) <- carregar_limpar_audio L (filepath n m) SR 40 ;;
   '(_, fft_db) <- espectro_fft_medio L y sr N_FFT HOP_LENGTH ;;
   '(_, mel_db) <- espectro_mel_medio L y sr N_FFT HOP_LENGTH N_MELS ;;
   Ok (fft_db, mel_db))%result.

(** The three [append]s at the end of the loop body. *)
Definition acrescentar (d : dataset) (n : nat) (row : list R * list R) : dataset :=
  {| X_fft_list := X_fft_list d ++ [fst row];
     X_mel_list := X_mel_list d ++ [snd row];
     y_labels := y_labels d ++ [n] |}.

Definition vazio : dataset :=
  {| X_fft_list := []; X_mel_list := []; y_labels := [] |}.

(** The loop body on a candidate pair. *)
Definition corpo (L : librosa) (isfile : string -> bool)
           (d : dataset) (c : nat * nat) : prog dataset :=
  loop_body L isfile d (fst c) (snd c).

(** The line printed first when a candidate is visited. *)
Definition linha (isfile : string -> bool) (c : nat * nat) : event :=
  Print (if isfile (caminho c) then processando (caminho c) else aviso (caminho c)).

Definition is_save (ev : event) : bool :=
  match ev with
  | Save _ _ => true
  | Print _ => false
  end.

(** The lines printed by a run. *)
Fixpoint printed (tr : list event) : list string :=
  match tr with
  | [] => []
  | Print line :: tr' => line :: printed tr'
  | Save _ _ :: tr' => printed tr'
  end.

(** The files written by a run, with their contents, in order. *)
Fixpoint saved (tr : list event) : list (string * ndarray) :=
  match tr with
  | [] => []
  | Print _ :: tr' => saved tr'
  | Save file arr :: tr' => (file, arr) :: saved tr'
  end.

(** What the script does after the loop, given the three arrays. *)
Definition relatorio (X_fft X_mel y : ndarray) : list event :=
  [ Print "Formatos das matrizes:"%string;
    Print ("X_fft: " ++ repr_shape (shape X_fft))%string;
    Print ("X_mel: " ++ repr_shape (shape X_mel))%string;
    Print ("y_labels: " ++ repr_shape (shape y))%string;
    Save "X_fft.npy" X_fft;
    Save "X_mel.npy" X_mel;
    Save "y_labels.npy" y;
    Print "Arquivos salvos: X_fft.npy, X_mel.npy, y_labels.npy"%string ].

(** The reading of the freeze step under which the feature arrays are
    two-dimensional whatever the number of samples found. *)
Definition freeze_shapes_for_any_count (L : librosa) (isfile : string -> bool) : Prop :=
  exists tr X_fft X_mel y,
    script L isfile = (tr, Ok tt) /\
    saved tr = [("X_fft.npy"%string, X_fft); ("X_mel.npy"%string, X_mel);
                ("y_labels.npy"%string, y)] /\
    shape X_fft = [length (presentes isfile); (N_FFT / 2 + 1)%nat] /\
    shape X_mel = [length (presentes isfile); N_MELS] /\
    shape y = [length (presentes isfile)].

(** An empty base directory. *)
Definition diretorio_vazio : string -> bool := fun _ => false.

(** A base directory that holds [corda3_5.wav] and nothing else. *)
Definition so_corda3_5 : string -> bool :=
  fun p => (p =? "/content/drive/MyDrive/cordas_amostras/corda3_5.wav")%string.

(** No string occurs twice. *)
Fixpoint distintos (l : list string) : bool :=
  match l with
  | [] => true
  | x :: t => negb (existsb (String.eqb x) t) && distintos t
  end.

(** The empty one-dimensional array. *)
Definition array_vazio : ndarray := Float64Array [0%nat] [].

(** A decoder that fails on every file. *)
Definition librosa_corrompido : librosa := {|
  load := fun _ _ => Raise (LibrosaError "NoBackendError");
  trim := trim librosa_exemplo;
  stft := stft librosa_exemplo;
  melspectrogram := melspectrogram librosa_exemplo;
  mel_frequencies := mel_frequencies librosa_exemplo
|}.

(** ** Vocabulary of the further properties *)

(** Is the event one of the loop's warning lines? *)
Definition eh_aviso (ev : event) : bool :=
  match ev with
  | Print line => String.prefix "AVISO:" line
  | Save _ _ => false
  end.

(** The same library with another [mel_frequencies]. *)
Definition com_mel_frequencies (L : librosa) (mf : nat -> R -> R -> list R)
  : librosa :=
  {| load := load L;
     trim := trim L;
     stft := stft L;
     melspectrogram := melspectrogram L;
     mel_frequencies := mf |}.

(** A trim that leaves no sample. *)
Definition librosa_corte_total : librosa := {|
  load := load librosa_exemplo;
  trim := fun _ _ => Ok ([], (0%nat, 0%nat));
  stft := stft librosa_exemplo;
  melspectrogram := melspectrogram librosa_exemplo;
  mel_frequencies := mel_frequencies librosa_exemplo
|}.

(** Transforms of a silent clip: every coefficient is zero. *)
Definition librosa_silencio : librosa := {|
  load := load librosa_exemplo;
  trim := trim librosa_exemplo;
  stft := fun _ n_fft _ => Ok (repeat [mkC 0 0] (1 + n_fft / 2));
  melspectrogram := fun _ _ _ _ n_mels _ => Ok (repeat [0] n_mels);
  mel_frequencies := mel_frequencies librosa_exemplo
|}.

(** Transforms of a quiet clip: one bin of power [1e-4], all others 0. *)
Definition librosa_baixo : librosa := {|
  load := load librosa_exemplo;
  trim := trim librosa_exemplo;
  stft := fun _ n_fft _ => Ok ([mkC 1e-2 0] :: repeat [mkC 0 0] (n_fft / 2));
  melspectrogram := melspectrogram librosa_exemplo;
  mel_frequencies := mel_frequencies librosa_exemplo
|}.

(** Are the string numbers of a list of candidates in non-decreasing order? *)
Fixpoint ordenado_fst (l : list (nat * nat)) : bool :=
  match l with
  | [] => true
  | a :: t => forallb (fun b => (fst a <=? fst b)%nat) t && ordenado_fst t
  end.

(** * The definitions on concrete inputs *)

Example filepath_3_5 :
  filepath 3 5 = "/content/drive/MyDrive/cordas_amostras/corda3_5.wav"%string.
Proof. reflexivity. Qed.

Example filename_6_30 : filename 6 30 = "corda6_30.wav"%string.
Proof. reflexivity. Qed.

Example candidatos_first_last :
  nth_error candidatos 0 = Some (1, 1)%nat /\
  nth_error candidatos 30 = Some (2, 1)%nat /\
  nth_error candidatos 179 = Some (6, 30)%nat /\
  nth_error candidatos 180 = None.
Proof. repeat split. Qed.

Example repr_shape_vector : repr_shape [0%nat] = "(0,)"%string.
Proof. reflexivity. Qed.

Example repr_shape_matrix : repr_shape [3%nat; 1025%nat] = "(3, 1025)"%string.
Proof. reflexivity. Qed.

Example np_array_rows_empty : np_array_rows [] = Ok (Float64Array [0%nat] []).
Proof. reflexivity. Qed.

Example np_array_rows_matrix :
  np_array_rows [[1; 2]; [3; 4]; [5; 6]]
  = Ok (Float64Array [3%nat; 2%nat] [1; 2; 3; 4; 5; 6]).
Proof. reflexivity. Qed.

Example np_array_rows_ragged :
  exists msg, np_array_rows [[1; 2]; [3]] = Raise (ValueError msg).
Proof. eexists. reflexivity. Qed.

Example np_linspace_5 : np_linspace 0 1 5 = [0 * (1 / 4) + 0; 1 * (1 / 4) + 0;
                                             2 * (1 / 4) + 0; 3 * (1 / 4) + 0; 1].
Proof.
  unfold np_linspace. cbn [Nat.sub Nat.ltb Nat.leb seq map Nat.eqb INR].
  repeat (f_equal; try lra).
Qed.

Example np_max_empty : exists msg, np_max [] = Raise (ValueError msg).
Proof. eexists. reflexivity. Qed.

Example script_on_empty_directory_prints_shapes :
  skipn 180 (printed (fst (script librosa_exemplo diretorio_vazio)))
  = [ "Formatos das matrizes:"; "X_fft: (0,)"; "X_mel: (0,)"; "y_labels: (0,)";
      "Arquivos salvos: X_fft.npy, X_mel.npy, y_labels.npy" ]%string.
Proof. vm_compute. reflexivity. Qed.

(** * Properties of the numeric primitives *)

Lemma fold_left_Rmax_ge_init (l : list R) (x : R) : x <= fold_left Rmax l x.
Proof.
  revert x; induction l as [|a l IH]; intros x; simpl.
  - lra.
  - eapply Rle_trans; [apply (Rmax_l x a) | apply IH].
Qed.

Lemma fold_left_Rmax_ge_In (l : list R) :
  forall x v, In v l -> v <= fold_left Rmax l x.
Proof.
  induction l as [|a l IH]; intros x v Hin; simpl; [contradiction|].
  destruct Hin as [->|Hin].
  - eapply Rle_trans; [apply (Rmax_r x v) | apply fold_left_Rmax_ge_init].
  - now apply IH.
Qed.

Lemma fold_left_Rmax_attained (l : list R) :
  forall x, fold_left Rmax l x = x \/ In (fold_left Rmax l x) l.
Proof.
  induction l as [|a l IH]; intros x; simpl; [now left|].
  destruct (IH (Rmax x a)) as [H|H]; [|now right; right].
  rewrite H. unfold Rmax; destruct (Rle_dec x a); [right; now left | now left].
Qed.

Lemma np_max_is_max (a : list R) (m : R) : np_max a = Ok m -> is_max m a.
Proof.
  destruct a as [|x t]; simpl; [discriminate|].
  intros [= <-]; split.
  - destruct (fold_left_Rmax_attained t x) as [->|H]; [now left | now right].
  - intros v [<-|Hv]; [apply fold_left_Rmax_ge_init | now apply fold_left_Rmax_ge_In].
Qed.

Lemma np_max_nonempty (a : list R) : a <> [] -> exists m, np_max a = Ok m.
Proof. destruct a; [congruence | intros _; simpl; eauto]. Qed.

Lemma is_max_unique (a : list R) (m m' : R) : is_max m a -> is_max m' a -> m = m'.
Proof.
  intros [Hin Hle] [Hin' Hle'].
  apply Rle_antisym; [now apply Hle' | now apply Hle].
Qed.

Lemma is_max_np_max (a : list R) (m : R) : is_max m a -> np_max a = Ok m.
Proof.
  intros Hm. destruct (np_max_nonempty a) as [m' Hm'].
  - destruct Hm as [Hin _]; intros ->; contradiction.
  - rewrite Hm'; f_equal. eapply is_max_unique; eauto using np_max_is_max.
Qed.

Lemma ln_10_pos : 0 < ln 10.
Proof. rewrite <- ln_1. apply ln_increasing; lra. Qed.

Lemma log10_le (x y : R) : 0 < x -> x <= y -> log10 x <= log10 y.
Proof.
  intros Hx [Hlt| ->]; [|lra].
  unfold log10, Rdiv. apply Rmult_le_compat_r.
  - left; apply Rinv_0_lt_compat, ln_10_pos.
  - left; now apply ln_increasing.
Qed.

Lemma log10_div (x y : R) : 0 < x -> 0 < y -> log10 (x / y) = log10 x - log10 y.
Proof.
  intros Hx Hy. unfold log10. change (x / y) with (x * / y).
  rewrite ln_mult, ln_Rinv by (auto using Rinv_0_lt_compat).
  field. apply Rgt_not_eq, ln_10_pos.
Qed.

Lemma log10_pow10 (n : nat) : log10 (10 ^ n) = INR n.
Proof.
  unfold log10. rewrite ln_pow by lra. field. apply Rgt_not_eq, ln_10_pos.
Qed.

Lemma log10_inv_pow10 (n : nat) : log10 (/ 10 ^ n) = - INR n.
Proof.
  unfold log10. rewrite ln_Rinv by (apply pow_lt; lra). rewrite ln_pow by lra.
  field. apply Rgt_not_eq, ln_10_pos.
Qed.

Lemma amin_default_pos : 0 < amin_default.
Proof. unfold amin_default; lra. Qed.

(** With a positive floor and a non-negative range, [power_to_db] succeeds
    on every non-empty array, its intermediate maximum is 0, and each
    output element is the clamped log ratio. *)
Lemma power_to_db_closed (S : list R) (amin top_db ref : R) :
  0 < amin -> np_max S = Ok ref ->
  power_to_db S amin top_db =
  Ok (map (fun s => Rmax (10 * log10 (Rmax amin s) - 10 * log10 (Rmax amin ref))
                         (0 - top_db)) S).
Proof.
  intros Hamin Href. unfold power_to_db. rewrite Href; simpl.
  pose proof (np_max_is_max _ _ Href) as [Hin Hle].
  rewrite map_map.
  rewrite (is_max_np_max _ 0); simpl.
  - now rewrite map_map.
  - split.
    + apply in_map_iff. exists ref; split; [lra | assumption].
    + intros v Hv. apply in_map_iff in Hv as [s [<- Hs]].
      assert (log10 (Rmax amin s) <= log10 (Rmax amin ref)); [|lra].
      apply log10_le.
      * eapply Rlt_le_trans; [exact Hamin | apply Rmax_l].
      * apply Rmax_lub; [apply Rmax_l|].
        eapply Rle_trans; [now apply Hle | apply Rmax_r].
Qed.

Lemma db_of_le_0 (ref p : R) : p <= ref -> db_of ref p <= 0.
Proof.
  intros Hle. unfold db_of, top_db_default. apply Rmax_lub; [|lra].
  assert (log10 (Rmax amin_default p) <= log10 (Rmax amin_default ref)); [|lra].
  apply log10_le.
  - eapply Rlt_le_trans; [exact amin_default_pos | apply Rmax_l].
  - apply Rmax_lub; [apply Rmax_l | eapply Rle_trans; [exact Hle | apply Rmax_r]].
Qed.

Lemma db_of_ge_floor (ref p : R) : -80 <= db_of ref p.
Proof.
  unfold db_of, top_db_default.
  eapply Rle_trans; [|apply Rmax_r]. lra.
Qed.

Lemma db_of_ref (ref : R) : db_of ref ref = 0.
Proof.
  unfold db_of, top_db_default. rewrite Rmax_left; lra.
Qed.

(** The default conversion on a non-empty array. *)
Lemma power_to_db_default (S : list R) :
  S <> [] ->
  exists ref, np_max S = Ok ref /\
    power_to_db S amin_default top_db_default = Ok (map (db_of ref) S).
Proof.
  intros HS. destruct (np_max_nonempty S HS) as [ref Href].
  exists ref; split; [assumption|].
  now apply power_to_db_closed; [apply amin_default_pos|].
Qed.

Lemma map_db_of_is_max (S : list R) (ref : R) :
  is_max ref S -> is_max 0 (map (db_of ref) S).
Proof.
  intros [Hin Hle]; split.
  - apply in_map_iff. exists ref; split; [apply db_of_ref | assumption].
  - intros v Hv. apply in_map_iff in Hv as [p [<- Hp]].
    now apply db_of_le_0, Hle.
Qed.

Lemma map_db_of_bounds (S : list R) (ref : R) :
  is_max ref S -> Forall (fun v => -80 <= v <= 0) (map (db_of ref) S).
Proof.
  intros [_ Hle]. apply Forall_forall. intros v Hv.
  apply in_map_iff in Hv as [p [<- Hp]].
  split; [apply db_of_ge_floor | now apply db_of_le_0, Hle].
Qed.

(** Inside the floor and the 80 dB range, the conversion is the plain log
    ratio. *)
Lemma db_of_log_ratio (ref p : R) :
  p <= ref -> amin_default <= p -> 1e-8 * ref <= p ->
  db_of ref p = db_log_ratio ref p.
Proof.
  intros Hle Hamin Hrange.
  pose proof amin_default_pos as Ha.
  assert (Hp : 0 < p) by lra. assert (Hr : 0 < ref) by lra.
  unfold db_of, db_log_ratio, top_db_default.
  rewrite (Rmax_right amin_default p), (Rmax_right amin_default ref) by lra.
  rewrite log10_div by assumption.
  rewrite Rmax_left; [lra|].
  assert (H8 : log10 (/ 10 ^ 8) <= log10 (p / ref)).
  { apply log10_le.
    - apply Rinv_0_lt_compat, pow_lt; lra.
    - apply (Rmult_le_reg_r ref); [assumption|].
      unfold Rdiv. rewrite Rmult_assoc, Rinv_l by lra. lra. }
  rewrite log10_inv_pow10, log10_div in H8 by assumption.
  simpl in H8. lra.
Qed.

Lemma length_np_mean_axis1 (M : list (list R)) :
  length (np_mean_axis1 M) = length M.
Proof. unfold np_mean_axis1. apply length_map. Qed.

Lemma length_potencia_media (X : list (list complex)) :
  length (potencia_media X) = length X.
Proof. unfold potencia_media. now rewrite length_np_mean_axis1, length_map. Qed.

Lemma length_np_linspace (a b : R) (n : nat) : length (np_linspace a b n) = n.
Proof.
  unfold np_linspace. destruct (0 <? n - 1)%nat;
    now rewrite length_map, length_seq.
Qed.

Lemma nth_map_seq {A : Type} (f : nat -> A) (n i : nat) (d : A) :
  (i < n)%nat -> nth i (map f (seq 0 n)) d = f i.
Proof.
  intros Hi.
  rewrite (nth_indep _ d (f 0%nat)) by now rewrite length_map, length_seq.
  now rewrite map_nth, seq_nth.
Qed.

Lemma nth_np_linspace (a b : R) (n i : nat) :
  (1 < n)%nat -> (i < n)%nat ->
  nth i (np_linspace a b n) 0 = a + INR i * ((b - a) / INR (n - 1)).
Proof.
  intros Hn Hi. unfold np_linspace.
  assert (Hdiv : (0 <? n - 1)%nat = true) by (apply Nat.ltb_lt; lia).
  rewrite Hdiv; cbv zeta.
  rewrite nth_map_seq by assumption.
  destruct (Nat.eqb_spec i (n - 1)) as [->|Hne]; [|lra].
  field. apply not_0_INR. lia.
Qed.

Lemma nonempty_of_length {A : Type} (l : list A) (n : nat) :
  length l = S n -> l <> [].
Proof. destruct l; [discriminate | congruence]. Qed.

(** What [espectro_fft_medio] returns once the STFT is known. *)
Lemma espectro_fft_medio_eq (L : librosa) (y : list R) (sr : Z)
      (n_fft hop : nat) (X : list (list complex)) :
  stft L y n_fft hop = Ok X -> X <> [] ->
  exists ref, np_max (potencia_media X) = Ok ref /\
    espectro_fft_medio L y sr n_fft hop =
    Ok (np_linspace 0 (IZR sr / 2) (length X), map (db_of ref) (potencia_media X)).
Proof.
  intros HX Hne.
  destruct (power_to_db_default (potencia_media X)) as [ref [Href Hdb]].
  - intros Heq. apply Hne. apply length_zero_iff_nil.
    now rewrite <- length_potencia_media, Heq.
  - exists ref; split; [assumption|].
    unfold espectro_fft_medio. rewrite HX; cbn [rbind]; cbv zeta.
    fold (potencia_media X). rewrite Hdb; cbn [rbind].
    now rewrite length_potencia_media.
Qed.

(** What [espectro_mel_medio] returns once the Mel spectrogram is known. *)
Lemma espectro_mel_medio_eq (L : librosa) (y : list R) (sr : Z)
      (n_fft hop n_mels : nat) (S_mel : list (list R)) :
  melspectrogram L y sr n_fft hop n_mels 2 = Ok S_mel -> S_mel <> [] ->
  exists ref, np_max (np_mean_axis1 S_mel) = Ok ref /\
    espectro_mel_medio L y sr n_fft hop n_mels =
    Ok (mel_frequencies L n_mels 0 (IZR sr / 2), map (db_of ref) (np_mean_axis1 S_mel)).
Proof.
  intros HS Hne.
  destruct (power_to_db_default (np_mean_axis1 S_mel)) as [ref [Href Hdb]].
  - intros Heq. apply Hne. apply length_zero_iff_nil.
    now rewrite <- length_np_mean_axis1, Heq.
  - exists ref; split; [assumption|].
    unfold espectro_mel_medio. rewrite HS; cbn [rbind]; cbv zeta.
    now rewrite Hdb.
Qed.

Lemma stft_nonempty (L : librosa) (HL : librosa_shapes L) y n_fft hop X :
  stft L y n_fft hop = Ok X -> X <> [].
Proof.
  intros HX. eapply nonempty_of_length. eapply (stft_rows L HL); eauto.
Qed.

Lemma mel_nonempty (L : librosa) (HL : librosa_shapes L) y sr n_fft hop p S :
  melspectrogram L y sr n_fft hop N_MELS p = Ok S -> S <> [].
Proof.
  intros HS. eapply (nonempty_of_length _ 39). eapply (mel_rows L HL); eauto.
Qed.

Lemma librosa_exemplo_shapes : librosa_shapes librosa_exemplo.
Proof.
  split; simpl.
  - intros y n_fft hop X [= <-]. simpl. now rewrite repeat_length.
  - intros y sr n_fft hop n_mels p S [= <-]. apply repeat_length.
  - intros n fmin fmax. apply length_np_linspace.
Qed.

(** * The two spectral summarizers *)

(** C3: for every signal whose transform librosa computes, the maximum of
    the decibel vector returned by [espectro_fft_medio] is 0, and so is the
    maximum of the decibel vector returned by [espectro_mel_medio]. *)
Theorem espectro_db_max_is_zero (L : librosa) (y : list R) (sr : Z) :
  librosa_shapes L ->
  (forall X, stft L y N_FFT HOP_LENGTH = Ok X ->
     exists freqs db,
       espectro_fft_medio L y sr N_FFT HOP_LENGTH = Ok (freqs, db) /\
       np_max db = Ok 0) /\
  (forall S_mel, melspectrogram L y sr N_FFT HOP_LENGTH N_MELS 2 = Ok S_mel ->
     exists mel_freqs db,
       espectro_mel_medio L y sr N_FFT HOP_LENGTH N_MELS = Ok (mel_freqs, db) /\
       np_max db = Ok 0).
Proof.
  intros HL; split.
  - intros X HX.
    destruct (espectro_fft_medio_eq L y sr _ _ X HX (stft_nonempty L HL _ _ _ _ HX))
      as [ref [Href Heq]].
    eexists _, _; split; [exact Heq|].
    apply is_max_np_max, map_db_of_is_max, np_max_is_max, Href.
  - intros S_mel HS.
    destruct (espectro_mel_medio_eq L y sr _ _ _ S_mel HS
                (mel_nonempty L HL _ _ _ _ _ _ HS)) as [ref [Href Heq]].
    eexists _, _; split; [exact Heq|].
    apply is_max_np_max, map_db_of_is_max, np_max_is_max, Href.
Qed.

Lemma espectro_db_max_is_zero_witness :
  (exists freqs db,
     espectro_fft_medio librosa_exemplo sinal_exemplo SR N_FFT HOP_LENGTH
       = Ok (freqs, db) /\ np_max db = Ok 0) /\
  (exists mel_freqs db,
     espectro_mel_medio librosa_exemplo sinal_exemplo SR N_FFT HOP_LENGTH N_MELS
       = Ok (mel_freqs, db) /\ np_max db = Ok 0).
Proof.
  destruct (espectro_db_max_is_zero librosa_exemplo sinal_exemplo SR
              librosa_exemplo_shapes) as [Hfft Hmel].
  split; [eapply Hfft | eapply Hmel]; reflexivity.
Defined.

(** C10: for every signal whose transform librosa computes, every element
    of the decibel vectors returned by [espectro_fft_medio] and
    [espectro_mel_medio] lies in the closed interval [-80, 0]. *)
Theorem espectro_db_range (L : librosa) (y : list R) (sr : Z) :
  librosa_shapes L ->
  (forall X, stft L y N_FFT HOP_LENGTH = Ok X ->
     exists freqs db,
       espectro_fft_medio L y sr N_FFT HOP_LENGTH = Ok (freqs, db) /\
       Forall (fun v => -80 <= v <= 0) db) /\
  (forall S_mel, melspectrogram L y sr N_FFT HOP_LENGTH N_MELS 2 = Ok S_mel ->
     exists mel_freqs db,
       espectro_mel_medio L y sr N_FFT HOP_LENGTH N_MELS = Ok (mel_freqs, db) /\
       Forall (fun v => -80 <= v <= 0) db).
Proof.
  intros HL; split.
  - intros X HX.
    destruct (espectro_fft_medio_eq L y sr _ _ X HX (stft_nonempty L HL _ _ _ _ HX))
      as [ref [Href Heq]].
    eexists _, _; split; [exact Heq|].
    apply map_db_of_bounds, np_max_is_max, Href.
  - intros S_mel HS.
    destruct (espectro_mel_medio_eq L y sr _ _ _ S_mel HS
                (mel_nonempty L HL _ _ _ _ _ _ HS)) as [ref [Href Heq]].
    eexists _, _; split; [exact Heq|].
    apply map_db_of_bounds, np_max_is_max, Href.
Qed.

Lemma espectro_db_range_witness :
  (exists freqs db,
     espectro_fft_medio librosa_exemplo sinal_exemplo SR N_FFT HOP_LENGTH
       = Ok (freqs, db) /\ Forall (fun v => -80 <= v <= 0) db) /\
  (exists mel_freqs db,
     espectro_mel_medio librosa_exemplo sinal_exemplo SR N_FFT HOP_LENGTH N_MELS
       = Ok (mel_freqs, db) /\ Forall (fun v => -80 <= v <= 0) db).
Proof.
  destruct (espectro_db_range librosa_exemplo sinal_exemplo SR
              librosa_exemplo_shapes) as [Hfft Hmel].
  split; [eapply Hfft | eapply Hmel]; reflexivity.
Defined.

(** C5: with [N_FFT = 2048] and [N_MELS = 40], the linear summarizer
    returns a decibel vector and a frequency vector of length
    [N_FFT/2 + 1 = 1025], the frequencies linearly spaced from 0 to [sr/2];
    the Mel summarizer returns a decibel vector and a centre-frequency
    vector of length [N_MELS = 40]. *)
Theorem espectro_lengths (L : librosa) (y : list R) (sr : Z) :
  librosa_shapes L ->
  (N_FFT / 2 + 1 = 1025)%nat /\
  (forall X, stft L y N_FFT HOP_LENGTH = Ok X ->
     exists freqs db,
       espectro_fft_medio L y sr N_FFT HOP_LENGTH = Ok (freqs, db) /\
       length db = 1025%nat /\ length freqs = 1025%nat /\
       nth 0 freqs 0 = 0 /\ nth 1024 freqs 0 = IZR sr / 2 /\
       forall i, (i < 1025)%nat -> nth i freqs 0 = INR i * (IZR sr / 2 / 1024)) /\
  (forall S_mel, melspectrogram L y sr N_FFT HOP_LENGTH N_MELS 2 = Ok S_mel ->
     exists mel_freqs db,
       espectro_mel_medio L y sr N_FFT HOP_LENGTH N_MELS = Ok (mel_freqs, db) /\
       length db = 40%nat /\ length mel_freqs = 40%nat).
Proof.
  intros HL; split; [reflexivity | split].
  - intros X HX.
    destruct (espectro_fft_medio_eq L y sr _ _ X HX (stft_nonempty L HL _ _ _ _ HX))
      as [ref [Href Heq]].
    pose proof (stft_rows L HL _ _ _ _ HX) as Hlen.
    change (1 + N_FFT / 2)%nat with 1025%nat in Hlen.
    rewrite Hlen in Heq.
    assert (Hnth : forall i, (i < 1025)%nat ->
              nth i (np_linspace 0 (IZR sr / 2) 1025) 0 = INR i * (IZR sr / 2 / 1024)).
    { intros i Hi. rewrite nth_np_linspace by lia.
      change (1025 - 1)%nat with 1024%nat.
      replace (INR 1024) with 1024 by (rewrite INR_IZR_INZ; reflexivity). lra. }
    eexists _, _; split; [exact Heq|].
    rewrite length_map, length_potencia_media, length_np_linspace.
    split; [exact Hlen | split; [reflexivity | split; [|split; [|exact Hnth]]]].
    + rewrite Hnth by lia. simpl; lra.
    + rewrite Hnth by lia.
      replace (INR 1024) with 1024 by (rewrite INR_IZR_INZ; reflexivity). lra.
  - intros S_mel HS.
    destruct (espectro_mel_medio_eq L y sr _ _ _ S_mel HS
                (mel_nonempty L HL _ _ _ _ _ _ HS)) as [ref [Href Heq]].
    eexists _, _; split; [exact Heq|].
    rewrite length_map, length_np_mean_axis1.
    split; [exact (mel_rows L HL _ _ _ _ _ _ _ HS) | apply (mel_frequencies_len L HL)].
Qed.

Lemma espectro_lengths_witness :
  (exists freqs db,
     espectro_fft_medio librosa_exemplo sinal_exemplo SR N_FFT HOP_LENGTH
       = Ok (freqs, db) /\
     length db = 1025%nat /\ length freqs = 1025%nat /\
     nth 1024 freqs 0 = IZR SR / 2) /\
  (exists mel_freqs db,
     espectro_mel_medio librosa_exemplo sinal_exemplo SR N_FFT HOP_LENGTH N_MELS
       = Ok (mel_freqs, db) /\
     length db = 40%nat /\ length mel_freqs = 40%nat).
Proof.
  destruct (espectro_lengths librosa_exemplo sinal_exemplo SR
              librosa_exemplo_shapes) as [_ [Hfft Hmel]].
  split.
  - destruct (Hfft _ eq_refl) as [freqs [db [Heq [Hdb [Hfreqs [_ [Hlast _]]]]]]].
    exists freqs, db. repeat split; assumption.
  - destruct (Hmel _ eq_refl) as [mel_freqs [db [Heq [Hdb Hfreqs]]]].
    exists mel_freqs, db. repeat split; assumption.
Defined.

(** C2 (as amended): the decibel vector of [espectro_fft_medio] is, element
    by element, [max(10*log10(max(amin, p)) - 10*log10(max(amin, ref)), -80)]
    of the time-averaged power [p] per bin, with [amin = 1e-10] and [ref]
    the maximum of the averaged vector; it equals [10*log10(p / ref)] for
    every bin with [p >= 1e-10] that is at most 80 dB below the maximum
    ([p >= 1e-8 * ref]).  [espectro_mel_medio] converts the time-averaged
    Mel-filtered power the same way. *)
Theorem espectro_db_clamped_log_ratio (L : librosa) (y : list R) (sr : Z) :
  librosa_shapes L ->
  (forall X, stft L y N_FFT HOP_LENGTH = Ok X ->
     exists ref freqs db,
       is_max ref (potencia_media X) /\
       espectro_fft_medio L y sr N_FFT HOP_LENGTH = Ok (freqs, db) /\
       db = map (fun p => Rmax (10 * log10 (Rmax 1e-10 p) - 10 * log10 (Rmax 1e-10 ref))
                               (0 - 80)) (potencia_media X) /\
       forall i p, nth_error (potencia_media X) i = Some p ->
         1e-10 <= p -> 1e-8 * ref <= p ->
         nth_error db i = Some (10 * log10 (p / ref))) /\
  (forall S_mel, melspectrogram L y sr N_FFT HOP_LENGTH N_MELS 2 = Ok S_mel ->
     exists ref mel_freqs db,
       is_max ref (np_mean_axis1 S_mel) /\
       espectro_mel_medio L y sr N_FFT HOP_LENGTH N_MELS = Ok (mel_freqs, db) /\
       db = map (fun p => Rmax (10 * log10 (Rmax 1e-10 p) - 10 * log10 (Rmax 1e-10 ref))
                               (0 - 80)) (np_mean_axis1 S_mel) /\
       forall i p, nth_error (np_mean_axis1 S_mel) i = Some p ->
         1e-10 <= p -> 1e-8 * ref <= p ->
         nth_error db i = Some (10 * log10 (p / ref))).
Proof.
  assert (Hpoint : forall (P : list R) ref, is_max ref P ->
            forall i p, nth_error P i = Some p -> 1e-10 <= p -> 1e-8 * ref <= p ->
            nth_error (map (db_of ref) P) i = Some (10 * log10 (p / ref))).
  { intros P ref [_ Hle] i p Hp Hamin Hrange.
    rewrite nth_error_map, Hp; simpl. f_equal.
    apply db_of_log_ratio; auto. apply Hle. eapply nth_error_In; eauto. }
  intros HL; split.
  - intros X HX.
    destruct (espectro_fft_medio_eq L y sr _ _ X HX (stft_nonempty L HL _ _ _ _ HX))
      as [ref [Href Heq]].
    apply np_max_is_max in Href.
    eexists ref, _, _; split; [exact Href | split; [exact Heq | split; [reflexivity|]]].
    now apply Hpoint.
  - intros S_mel HS.
    destruct (espectro_mel_medio_eq L y sr _ _ _ S_mel HS
                (mel_nonempty L HL _ _ _ _ _ _ HS)) as [ref [Href Heq]].
    apply np_max_is_max in Href.
    eexists ref, _, _; split; [exact Href | split; [exact Heq | split; [reflexivity|]]].
    now apply Hpoint.
Qed.

Lemma espectro_db_clamped_log_ratio_witness :
  (exists ref freqs db,
     is_max ref (potencia_media ([mkC 1 0] :: repeat [mkC 1e-5 0] (N_FFT / 2))) /\
     espectro_fft_medio librosa_exemplo sinal_exemplo SR N_FFT HOP_LENGTH
       = Ok (freqs, db)) /\
  (exists ref mel_freqs db,
     is_max ref (np_mean_axis1 (repeat [1] N_MELS)) /\
     espectro_mel_medio librosa_exemplo sinal_exemplo SR N_FFT HOP_LENGTH N_MELS
       = Ok (mel_freqs, db)).
Proof.
  destruct (espectro_db_clamped_log_ratio librosa_exemplo sinal_exemplo SR
              librosa_exemplo_shapes) as [Hfft Hmel].
  split.
  - destruct (Hfft _ eq_refl) as [ref [freqs [db [Hmax [Heq _]]]]].
    exists ref, freqs, db. split; assumption.
  - destruct (Hmel _ eq_refl) as [ref [mel_freqs [db [Hmax [Heq _]]]]].
    exists ref, mel_freqs, db. split; assumption.
Defined.

Lemma potencia_media_exemplo (n : nat) :
  potencia_media ([mkC 1 0] :: repeat [mkC 1e-5 0] n) = 1 :: repeat 1e-10 n.
Proof.
  unfold potencia_media, np_mean_axis1. rewrite !map_cons, !map_repeat.
  f_equal; [|f_equal]; unfold np_sum, Cabs; cbn [map fold_left length Re Im INR];
    rewrite pow2_sqrt; lra.
Qed.

Lemma nth_error_second {A : Type} (a x : A) (n : nat) :
  nth_error (a :: repeat x (S n)) 1 = Some x.
Proof. reflexivity. Qed.

(** C2 (as stated) fails: in [librosa_exemplo] the second bin lies 100 dB
    below the first, the plain log ratio gives -100 dB there, and
    [espectro_fft_medio] returns -80 dB. *)
Lemma fft_db_is_not_log_ratio :
  ~ fft_db_is_log_ratio librosa_exemplo sinal_exemplo SR.
Proof.
  intros Hclaim.
  pose (X := [mkC 1 0] :: repeat [mkC 1e-5 0] (N_FFT / 2)).
  assert (HX : stft librosa_exemplo sinal_exemplo N_FFT HOP_LENGTH = Ok X)
    by reflexivity.
  assert (HP : potencia_media X = 1 :: repeat 1e-10 (S 1023))
    by apply potencia_media_exemplo.
  assert (Hne : X <> []) by (unfold X; discriminate).
  destruct (espectro_fft_medio_eq librosa_exemplo sinal_exemplo SR _ _ X HX Hne)
    as [ref [Href Heq]].
  specialize (Hclaim X _ _ ref HX Href Heq).
  clearbody X.
  rewrite HP in *.
  assert (Hone : ref = 1).
  { apply np_max_is_max in Href. apply (is_max_unique _ _ _ Href).
    split; [now left|].
    intros v [<-|Hv]; [lra|]. apply repeat_spec in Hv. subst v; lra. }
  subst ref.
  apply (f_equal (fun l => nth_error l 1)) in Hclaim.
  rewrite !nth_error_map, nth_error_second in Hclaim.
  injection Hclaim as Hsecond.
  pose proof (db_of_ge_floor 1 1e-10) as Hfloor.
  rewrite Hsecond in Hfloor. unfold db_log_ratio in Hfloor.
  replace (1e-10 / 1) with (/ 10 ^ 10) in Hfloor by lra.
  rewrite log10_inv_pow10 in Hfloor.
  replace (INR 10) with 10 in Hfloor by (rewrite INR_IZR_INZ; reflexivity).
  lra.
Qed.

(** * The audio loader *)

Lemma np_abs_nonneg (a : list R) (m : R) : is_max m (np_abs a) -> 0 <= m.
Proof.
  intros [Hin _]. apply in_map_iff in Hin as [v [<- _]]. apply Rabs_pos.
Qed.

Lemma np_abs_scaled (a : list R) (c : R) :
  0 < c -> np_abs (map (fun v => v / c) a) = map (fun x => x / c) (np_abs a).
Proof.
  intros Hc. unfold np_abs. rewrite !map_map. apply map_ext. intros v.
  unfold Rdiv. rewrite Rabs_mult, Rabs_inv, (Rabs_right c); [reflexivity | lra].
Qed.

Lemma is_max_scaled (a : list R) (m c : R) :
  0 < c -> is_max m a -> is_max (m / c) (map (fun x => x / c) a).
Proof.
  intros Hc [Hin Hle]; split.
  - apply in_map_iff; eauto.
  - intros v Hv. apply in_map_iff in Hv as [x [<- Hx]].
    unfold Rdiv. apply Rmult_le_compat_r; [left; now apply Rinv_0_lt_compat | auto].
Qed.

(** C4: once the file is decoded and trimmed to a non-empty signal,
    [carregar_limpar_audio] returns every sample divided by
    [max(|sample|) + 1e-9]; the maximum absolute amplitude of what it
    returns is at most 1, and it is strictly positive unless the trimmed
    signal is all-zero (and it is 0 when it is). *)
Theorem carregar_limpar_audio_normalizes
        (L : librosa) (path : string) (sr sr' : Z) (top_db : R)
        (y y_trim : list R) (idx : nat * nat) :
  load L path sr = Ok (y, sr') ->
  trim L y top_db = Ok (y_trim, idx) ->
  y_trim <> [] ->
  exists m peak,
    np_max (np_abs y_trim) = Ok m /\
    carregar_limpar_audio L path sr top_db
      = Ok (map (fun v => v / (m + 1e-9)) y_trim, sr') /\
    np_max (np_abs (map (fun v => v / (m + 1e-9)) y_trim)) = Ok peak /\
    peak <= 1 /\
    ((exists v, In v y_trim /\ v <> 0) -> 0 < peak) /\
    ((forall v, In v y_trim -> v = 0) -> peak = 0).
Proof.
  intros Hload Htrim Hne.
  destruct (np_max_nonempty (np_abs y_trim)) as [m Hm].
  { intros Heq. apply Hne. now apply map_eq_nil in Heq. }
  pose proof (np_max_is_max _ _ Hm) as Hmax.
  pose proof (np_abs_nonneg _ _ Hmax) as Hm0.
  assert (Hc : 0 < m + 1e-9) by lra.
  exists m, (m / (m + 1e-9)).
  split; [assumption | split; [|split; [|split; [|split]]]].
  - unfold carregar_limpar_audio.
    rewrite Hload; cbn [rbind]. rewrite Htrim; cbn [rbind]. now rewrite Hm.
  - rewrite np_abs_scaled by assumption.
    now apply is_max_np_max, is_max_scaled.
  - apply (Rmult_le_reg_r (m + 1e-9)); [assumption|].
    unfold Rdiv. rewrite Rmult_assoc, Rinv_l by lra. lra.
  - intros [v [Hv Hv0]].
    assert (Rabs v <= m).
    { apply (proj2 Hmax). unfold np_abs. now apply in_map. }
    pose proof (Rabs_pos_lt v Hv0).
    apply Rdiv_lt_0_compat; lra.
  - intros Hzero. destruct Hmax as [Hin _].
    apply in_map_iff in Hin as [v [<- Hv]].
    rewrite (Hzero v Hv), Rabs_R0. unfold Rdiv; apply Rmult_0_l.
Qed.

Lemma carregar_limpar_audio_normalizes_witness :
  exists m peak,
    np_max (np_abs sinal_exemplo) = Ok m /\
    carregar_limpar_audio librosa_exemplo "corda1_1.wav" SR 40
      = Ok (map (fun v => v / (m + 1e-9)) sinal_exemplo, SR) /\
    np_max (np_abs (map (fun v => v / (m + 1e-9)) sinal_exemplo)) = Ok peak /\
    peak <= 1 /\ 0 < peak.
Proof.
  destruct (carregar_limpar_audio_normalizes librosa_exemplo "corda1_1.wav"
              SR SR 40 sinal_exemplo sinal_exemplo (0%nat, 3%nat)
              eq_refl eq_refl)
    as [m [peak [Hm [Heq [Hpeak [Hle [Hpos _]]]]]]].
  - discriminate.
  - exists m, peak. repeat split; try assumption.
    apply Hpos. exists 0.5. split; [now left | lra].
Defined.

(** A trimmed signal without samples makes the loader raise. *)
Lemma carregar_limpar_audio_empty
      (L : librosa) (path : string) (sr sr' : Z) (top_db : R)
      (y : list R) (idx : nat * nat) :
  load L path sr = Ok (y, sr') ->
  trim L y top_db = Ok ([], idx) ->
  exists msg, carregar_limpar_audio L path sr top_db = Raise (ValueError msg).
Proof.
  intros Hload Htrim. unfold carregar_limpar_audio.
  rewrite Hload; cbn [rbind]. rewrite Htrim; cbn [rbind]. simpl. eauto.
Qed.

(** * The main loop *)

Section Loop.

Variable L : librosa.
Variable isfile : string -> bool.

Lemma bind_ret_l {A B : Type} (a : A) (f : A -> prog B) : bind (ret a) f = f a.
Proof. unfold bind, ret. now destruct (f a). Qed.

Lemma bind_assoc {A B C : Type} (p : prog A) (f : A -> prog B) (g : B -> prog C) :
  bind (bind p f) g = bind p (fun a => bind (f a) g).
Proof.
  destruct p as [tr [a|e]]; simpl; [|reflexivity].
  destruct (f a) as [tr1 [b|e]]; simpl; [|reflexivity].
  destruct (g b) as [tr2 r]. now rewrite app_assoc.
Qed.

Lemma for_each_app {A S : Type} (xs ys : list A) (body : S -> A -> prog S) (s : S) :
  for_each (xs ++ ys) body s = bind (for_each xs body s) (for_each ys body).
Proof.
  revert s; induction xs as [|x xs IH]; intros s; cbn [app for_each].
  - now rewrite bind_ret_l.
  - rewrite bind_assoc.
    destruct (body s x) as [tr [s'|e]]; [|reflexivity].
    unfold bind at 1 3. now rewrite IH.
Qed.

Lemma for_each_ext {A S : Type} (xs : list A) (body body' : S -> A -> prog S) :
  (forall s x, In x xs -> body s x = body' s x) ->
  forall s, for_each xs body s = for_each xs body' s.
Proof.
  induction xs as [|x xs IH]; intros Hext s; cbn [for_each]; [reflexivity|].
  rewrite Hext by now left.
  destruct (body' s x) as [tr [s'|e]]; [|reflexivity].
  unfold bind. rewrite IH; [reflexivity|].
  intros s0 x0 Hx0. apply Hext. now right.
Qed.

Lemma for_each_map {A B S : Type} (f : A -> B) (xs : list A)
      (body : S -> B -> prog S) (s : S) :
  for_each (map f xs) body s = for_each xs (fun s x => body s (f x)) s.
Proof.
  revert s; induction xs as [|x xs IH]; intros s; cbn [map for_each]; [reflexivity|].
  destruct (body s (f x)) as [tr [s'|e]]; [|reflexivity].
  unfold bind. now rewrite IH.
Qed.

Lemma for_each_flat_map {A B S : Type} (g : A -> list B) (xs : list A)
      (body : S -> B -> prog S) (s : S) :
  for_each (flat_map g xs) body s
  = for_each xs (fun s x => for_each (g x) body s) s.
Proof.
  revert s; induction xs as [|x xs IH]; intros s; cbn [flat_map for_each];
    [reflexivity|].
  rewrite for_each_app.
  destruct (for_each (g x) body s) as [tr [s'|e]]; [|reflexivity].
  unfold bind. now rewrite IH.
Qed.

(** The two nested loops visit [candidatos] in order. *)
Lemma main_loop_candidatos :
  main_loop L isfile = for_each candidatos (corpo L isfile) vazio.
Proof.
  unfold main_loop, candidatos. rewrite for_each_flat_map.
  apply for_each_ext. intros d n _. now rewrite for_each_map.
Qed.

(** An absent file: one warning, nothing appended, the loop goes on. *)
Lemma corpo_ausente (d : dataset) (c : nat * nat) :
  isfile (caminho c) = false ->
  corpo L isfile d c = ([Print (aviso (caminho c))], Ok d).
Proof.
  intros Habs. unfold corpo, loop_body. unfold caminho in Habs.
  rewrite Habs. reflexivity.
Qed.

(** A present file: the progress line, then the three steps; an exception
    of any of them leaves the body, a success appends one entry to each
    list. *)
Lemma corpo_presente (d : dataset) (c : nat * nat) :
  isfile (caminho c) = true ->
  corpo L isfile d c =
  match extrair L (fst c) (snd c) with
  | Ok row => ([Print (processando (caminho c))], Ok (acrescentar d (fst c) row))
  | Raise e => ([Print (processando (caminho c))], Raise e)
  end.
Proof.
  intros Hpres. unfold corpo, loop_body, extrair. unfold caminho in Hpres.
  rewrite Hpres. cbn [negb].
  destruct (carregar_limpar_audio L (filepath (fst c) (snd c)) SR 40)
    as [[y sr]|e]; [|reflexivity].
  cbn [rbind bind lift print].
  destruct (espectro_fft_medio L y sr N_FFT HOP_LENGTH) as [[freqs fft_db]|e];
    [|reflexivity].
  cbn [rbind bind lift print].
  destruct (espectro_mel_medio L y sr N_FFT HOP_LENGTH N_MELS) as [[mf mel_db]|e];
    reflexivity.
Qed.

Lemma linha_ausente (c : nat * nat) :
  isfile (caminho c) = false -> linha isfile c = Print (aviso (caminho c)).
Proof. intros H. unfold linha. now rewrite H. Qed.

Lemma linha_presente (c : nat * nat) :
  isfile (caminho c) = true -> linha isfile c = Print (processando (caminho c)).
Proof. intros H. unfold linha. now rewrite H. Qed.

(** A loop that runs to its end has printed one line per candidate and
    appended, for each present candidate in order, the features of its file
    and its string number. *)
Lemma run_ok (cs : list (nat * nat)) :
  forall d tr d',
    for_each cs (corpo L isfile) d = (tr, Ok d') ->
    tr = map (linha isfile) cs /\
    exists rows,
      Forall2 (fun c row => extrair L (fst c) (snd c) = Ok row)
              (filter (fun c => isfile (caminho c)) cs) rows /\
      X_fft_list d' = X_fft_list d ++ map fst rows /\
      X_mel_list d' = X_mel_list d ++ map snd rows /\
      y_labels d' = y_labels d ++ map fst (filter (fun c => isfile (caminho c)) cs).
Proof.
  induction cs as [|c cs IH]; intros d tr d' Hrun; cbn [for_each] in Hrun.
  - injection Hrun as <- <-. split; [reflexivity|].
    exists []. cbn. rewrite !app_nil_r. repeat split; constructor.
  - cbn [filter map]. destruct (isfile (caminho c)) eqn:Hc.
    + rewrite (corpo_presente d c Hc) in Hrun.
      destruct (extrair L (fst c) (snd c)) as [row|e] eqn:Hrow; [|discriminate].
      cbn [bind] in Hrun.
      destruct (for_each cs (corpo L isfile) (acrescentar d (fst c) row))
        as [tr' r] eqn:Hrest.
      injection Hrun as <- ->.
      destruct (IH _ _ _ Hrest) as [-> [rows [Hrows [Hfft [Hmel Hlab]]]]].
      split; [now rewrite (linha_presente c Hc)|].
      exists (row :: rows). cbn [map acrescentar X_fft_list X_mel_list y_labels] in *.
      rewrite Hfft, Hmel, Hlab, <- !app_assoc.
      repeat split; [constructor; assumption].
    + rewrite (corpo_ausente d c Hc) in Hrun. cbn [bind] in Hrun.
      destruct (for_each cs (corpo L isfile) d) as [tr' r] eqn:Hrest.
      injection Hrun as <- ->.
      destruct (IH _ _ _ Hrest) as [-> Hrows].
      split; [now rewrite (linha_ausente c Hc) | exact Hrows].
Qed.

(** Whatever happens, the loop prints a prefix of the candidates' lines and
    nothing else. *)
Lemma run_trace (cs : list (nat * nat)) :
  forall d, exists k,
    fst (for_each cs (corpo L isfile) d) = map (linha isfile) (firstn k cs).
Proof.
  induction cs as [|c cs IH]; intros d; cbn [for_each].
  - exists 0%nat. reflexivity.
  - destruct (isfile (caminho c)) eqn:Hc.
    + rewrite (corpo_presente d c Hc).
      destruct (extrair L (fst c) (snd c)) as [row|e].
      * cbn [bind]. destruct (IH (acrescentar d (fst c) row)) as [k Hk].
        destruct (for_each cs (corpo L isfile) (acrescentar d (fst c) row))
          as [tr' r].
        exists (S k). cbn [fst firstn map] in *.
        now rewrite Hk, (linha_presente c Hc).
      * exists 1%nat. cbn. now rewrite (linha_presente c Hc).
    + rewrite (corpo_ausente d c Hc). cbn [bind].
      destruct (IH d) as [k Hk].
      destruct (for_each cs (corpo L isfile) d) as [tr' r].
      exists (S k). cbn [fst firstn map] in *.
      now rewrite Hk, (linha_ausente c Hc).
Qed.

Lemma linhas_no_save (cs : list (nat * nat)) :
  Forall (fun ev => is_save ev = false) (map (linha isfile) cs).
Proof. apply Forall_forall. intros ev Hev. apply in_map_iff in Hev as [c [<- _]]. reflexivity. Qed.

Lemma run_no_save (cs : list (nat * nat)) (d : dataset) :
  Forall (fun ev => is_save ev = false) (fst (for_each cs (corpo L isfile) d)).
Proof. destruct (run_trace cs d) as [k ->]. apply linhas_no_save. Qed.

Lemma Forall2_In_l {A B : Type} (P : A -> B -> Prop) (l : list A) (l' : list B) (a : A) :
  Forall2 P l l' -> In a l -> exists b, In b l' /\ P a b.
Proof.
  induction 1 as [|x y l l' Hxy _ IH]; intros Hin; [contradiction|].
  destruct Hin as [->|Hin]; [exists y; split; [now left | assumption]|].
  destruct (IH Hin) as [b [Hb Hab]]. exists b; split; [now right | assumption].
Qed.

(** An exception in the processing of a present candidate stops the loop. *)
Lemma run_raise (cs : list (nat * nat)) (d : dataset) (c : nat * nat) (e : exn) :
  In c cs -> isfile (caminho c) = true -> extrair L (fst c) (snd c) = Raise e ->
  exists tr e', for_each cs (corpo L isfile) d = (tr, Raise e').
Proof.
  intros Hin Hc He.
  destruct (for_each cs (corpo L isfile) d) as [tr [d'|e']] eqn:Hrun; [|eauto].
  destruct (run_ok cs _ _ _ Hrun) as [_ [rows [Hrows _]]].
  destruct (Forall2_In_l _ _ _ c Hrows) as [row [_ Hrow]].
  - apply filter_In. now split.
  - congruence.
Qed.

(** If every present candidate is processed without exception, the loop
    runs to its end. *)
Lemma run_total (cs : list (nat * nat)) :
  (forall c, In c cs -> isfile (caminho c) = true ->
             exists row, extrair L (fst c) (snd c) = Ok row) ->
  forall d, exists tr d', for_each cs (corpo L isfile) d = (tr, Ok d').
Proof.
  induction cs as [|c cs IH]; intros Hall d; cbn [for_each].
  - eexists _, _; reflexivity.
  - assert (Hrest : forall c', In c' cs -> isfile (caminho c') = true ->
                      exists row, extrair L (fst c') (snd c') = Ok row)
      by (intros c' Hc'; apply Hall; now right).
    destruct (isfile (caminho c)) eqn:Hc.
    + rewrite (corpo_presente d c Hc).
      destruct (Hall c (or_introl eq_refl) Hc) as [row ->]. cbn [bind].
      destruct (IH Hrest (acrescentar d (fst c) row)) as [tr [d' ->]].
      eexists _, _; reflexivity.
    + rewrite (corpo_ausente d c Hc). cbn [bind].
      destruct (IH Hrest d) as [tr [d' ->]].
      eexists _, _; reflexivity.
Qed.

(** The script after the loop. *)
Lemma script_raise (tr : list event) (e : exn) :
  main_loop L isfile = (tr, Raise e) -> script L isfile = (tr, Raise e).
Proof. intros H. unfold script. now rewrite H. Qed.

Lemma script_ok (tr : list event) (d : dataset) (X_fft X_mel : ndarray) :
  main_loop L isfile = (tr, Ok d) ->
  np_array_rows (X_fft_list d) = Ok X_fft ->
  np_array_rows (X_mel_list d) = Ok X_mel ->
  script L isfile
  = (tr ++ relatorio X_fft X_mel (np_array_ints (y_labels d)), Ok tt).
Proof.
  intros Hloop Hfft Hmel. unfold script.
  rewrite Hloop; cbn [bind]. rewrite Hfft; cbn [bind lift].
  rewrite Hmel; cbn [bind lift]. reflexivity.
Qed.

Lemma script_trace_split (tr : list event) (d : dataset) :
  main_loop L isfile = (tr, Ok d) ->
  exists tail r, script L isfile = (tr ++ tail, r).
Proof.
  intros Hloop.
  destruct (np_array_rows (X_fft_list d)) as [X_fft|e] eqn:Hfft.
  - destruct (np_array_rows (X_mel_list d)) as [X_mel|e] eqn:Hmel.
    + eexists _, _. now apply script_ok; eauto.
    + exists [], (Raise e). unfold script.
      rewrite Hloop; cbn [bind]. rewrite Hfft; cbn [bind lift].
      rewrite Hmel; cbn [bind lift]. reflexivity.
  - exists [], (Raise e). unfold script.
    rewrite Hloop; cbn [bind]. rewrite Hfft; cbn [bind lift]. reflexivity.
Qed.

End Loop.

Lemma length_candidatos : length candidatos = 180%nat.
Proof. reflexivity. Qed.

Lemma np_array_rows_uniform (rows : list (list R)) (n : nat) :
  rows <> [] -> (forall r, In r rows -> length r = n) ->
  np_array_rows rows = Ok (Float64Array [length rows; n] (concat rows)).
Proof.
  destruct rows as [|r rest]; [congruence|]. intros _ Hlen.
  unfold np_array_rows.
  assert (Hall : forallb (fun r' => (length r' =? length r)%nat) rest = true).
  { apply forallb_forall. intros r' Hr'. apply Nat.eqb_eq.
    rewrite (Hlen r (or_introl eq_refl)). apply Hlen. now right. }
  rewrite Hall. now rewrite (Hlen r (or_introl eq_refl)).
Qed.

(** With librosa's row counts, the two vectors extracted from a file have
    lengths 1025 and 40. *)
Lemma extrair_lengths (L : librosa) (n m : nat) (row : list R * list R) :
  librosa_shapes L -> extrair L n m = Ok row ->
  length (fst row) = 1025%nat /\ length (snd row) = 40%nat.
Proof.
  intros HL. unfold extrair.
  destruct (carregar_limpar_audio L (filepath n m) SR 40) as [[y sr]|e];
    [|discriminate].
  cbn [rbind].
  destruct (espectro_fft_medio L y sr N_FFT HOP_LENGTH) as [[freqs fft_db]|e] eqn:Hfft;
    [|discriminate].
  cbn [rbind].
  destruct (espectro_mel_medio L y sr N_FFT HOP_LENGTH N_MELS) as [[mf mel_db]|e] eqn:Hmel;
    [|discriminate].
  cbn [rbind]. intros [= <-]. cbn [fst snd]. split.
  - destruct (stft L y N_FFT HOP_LENGTH) as [X|e] eqn:HX.
    + destruct (espectro_fft_medio_eq L y sr _ _ X HX (stft_nonempty L HL _ _ _ _ HX))
        as [ref [_ Heq]].
      rewrite Heq in Hfft. injection Hfft as _ <-.
      rewrite length_map, length_potencia_media.
      apply (stft_rows L HL _ _ _ _ HX).
    + unfold espectro_fft_medio in Hfft. rewrite HX in Hfft. discriminate.
  - destruct (melspectrogram L y sr N_FFT HOP_LENGTH N_MELS 2) as [S_mel|e] eqn:HS.
    + destruct (espectro_mel_medio_eq L y sr _ _ _ S_mel HS
                  (mel_nonempty L HL _ _ _ _ _ _ HS)) as [ref [_ Heq]].
      rewrite Heq in Hmel. injection Hmel as _ <-.
      rewrite length_map, length_np_mean_axis1.
      apply (mel_rows L HL _ _ _ _ _ _ _ HS).
    + unfold espectro_mel_medio in Hmel. rewrite HS in Hmel. discriminate.
Qed.

Lemma Forall2_nth_error_l {A B : Type} (P : A -> B -> Prop)
      (l : list A) (l' : list B) :
  Forall2 P l l' ->
  forall i a, nth_error l i = Some a -> exists b, nth_error l' i = Some b /\ P a b.
Proof.
  induction 1 as [|x y l l' Hxy _ IH]; intros [|i] a Hi; try discriminate.
  - injection Hi as <-. exists y. now split.
  - now apply IH.
Qed.

(** The flat form of a completed loop, on the script's two nested loops. *)
(** A completed loop that started from the empty lists. *)
Lemma run_ok_vazio (L : librosa) (isfile : string -> bool)
      (cs : list (nat * nat)) (tr : list event) (d : dataset) :
  for_each cs (corpo L isfile) vazio = (tr, Ok d) ->
  tr = map (linha isfile) cs /\
  exists rows,
    Forall2 (fun c row => extrair L (fst c) (snd c) = Ok row)
            (filter (fun c => isfile (caminho c)) cs) rows /\
    X_fft_list d = map fst rows /\
    X_mel_list d = map snd rows /\
    y_labels d = map fst (filter (fun c => isfile (caminho c)) cs).
Proof.
  intros Hrun.
  destruct (run_ok L isfile cs _ _ _ Hrun) as [Htr [rows H]].
  split; [assumption | exists rows; exact H].
Qed.

(** The flat form of a completed loop, on the script's two nested loops. *)
Lemma main_loop_ok (L : librosa) (isfile : string -> bool)
      (tr : list event) (d : dataset) :
  main_loop L isfile = (tr, Ok d) ->
  tr = map (linha isfile) candidatos /\
  exists rows,
    Forall2 (fun c row => extrair L (fst c) (snd c) = Ok row) (presentes isfile) rows /\
    X_fft_list d = map fst rows /\
    X_mel_list d = map snd rows /\
    y_labels d = map fst (presentes isfile).
Proof.
  rewrite main_loop_candidatos. unfold presentes. apply run_ok_vazio.
Qed.

(** The sample demonstration library processes every file. *)
Lemma extrair_exemplo (n m : nat) :
  exists row, extrair librosa_exemplo n m = Ok row.
Proof.
  unfold extrair.
  assert (Hload : exists y, carregar_limpar_audio librosa_exemplo (filepath n m) SR 40
                            = Ok (y, SR)) by (eexists; reflexivity).
  destruct Hload as [y ->]. cbn [rbind].
  destruct (espectro_fft_medio_eq librosa_exemplo y SR N_FFT HOP_LENGTH _ eq_refl)
    as [ref [_ ->]]; [discriminate|].
  cbn [rbind].
  destruct (espectro_mel_medio_eq librosa_exemplo y SR N_FFT HOP_LENGTH N_MELS _ eq_refl)
    as [ref' [_ ->]]; [discriminate|].
  cbn [rbind]. eauto.
Qed.

Lemma main_loop_exemplo (isfile : string -> bool) :
  exists tr d, main_loop librosa_exemplo isfile = (tr, Ok d).
Proof.
  rewrite main_loop_candidatos. apply run_total.
  intros c _ _. apply extrair_exemplo.
Qed.

Lemma presentes_so_corda3_5 : presentes so_corda3_5 = [(3, 5)%nat].
Proof. vm_compute. reflexivity. Qed.

(** * The dataset accumulator *)

(** C1: in every run whose loop reaches its end, the three lists have the
    same length, the number of expected files ([corda{n}_{m}.wav], n in
    1..6, m in 1..30) that are present; entry [i] of each list comes from
    the [i]-th present file in visiting order (outer loop over n, inner
    loop over m), with label n; the entry of [corda3_5.wav] has label 3. *)
Theorem dataset_parallel (L : librosa) (isfile : string -> bool)
        (tr : list event) (d : dataset) :
  main_loop L isfile = (tr, Ok d) ->
  length (X_fft_list d) = length (presentes isfile) /\
  length (X_mel_list d) = length (presentes isfile) /\
  length (y_labels d) = length (presentes isfile) /\
  (forall i n m, nth_error (presentes isfile) i = Some (n, m) ->
     exists fft_db mel_db,
       extrair L n m = Ok (fft_db, mel_db) /\
       nth_error (X_fft_list d) i = Some fft_db /\
       nth_error (X_mel_list d) i = Some mel_db /\
       nth_error (y_labels d) i = Some n) /\
  filename 3 5 = "corda3_5.wav"%string /\
  (forall i, nth_error (presentes isfile) i = Some (3, 5)%nat ->
     nth_error (y_labels d) i = Some 3%nat).
Proof.
  intros Hrun.
  destruct (main_loop_ok L isfile tr d Hrun) as [_ [rows [Hrows [Hfft [Hmel Hlab]]]]].
  pose proof (Forall2_length Hrows) as Hlen.
  assert (Hentry : forall i n m, nth_error (presentes isfile) i = Some (n, m) ->
            exists fft_db mel_db,
              extrair L n m = Ok (fft_db, mel_db) /\
              nth_error (X_fft_list d) i = Some fft_db /\
              nth_error (X_mel_list d) i = Some mel_db /\
              nth_error (y_labels d) i = Some n).
  { intros i n m Hi.
    destruct (Forall2_nth_error_l _ _ _ Hrows i (n, m) Hi) as [[fft_db mel_db] [Hrow Hext]].
    exists fft_db, mel_db. rewrite Hfft, Hmel, Hlab, !nth_error_map, Hrow, Hi.
    repeat split. exact Hext. }
  split; [now rewrite Hfft, length_map|].
  split; [now rewrite Hmel, length_map|].
  split; [now rewrite Hlab, length_map|].
  split; [exact Hentry|].
  split; [reflexivity|].
  intros i Hi. now destruct (Hentry i _ _ Hi) as [_ [_ [_ [_ [_ H]]]]].
Qed.

Lemma dataset_parallel_witness :
  exists tr d,
    main_loop librosa_exemplo so_corda3_5 = (tr, Ok d) /\
    length (X_fft_list d) = 1%nat /\
    length (X_mel_list d) = 1%nat /\
    y_labels d = [3%nat].
Proof.
  destruct (main_loop_exemplo so_corda3_5) as [tr [d Hrun]].
  exists tr, d.
  destruct (dataset_parallel librosa_exemplo so_corda3_5 tr d Hrun)
    as [Hfft [Hmel [Hlab [_ [_ Hlabel]]]]].
  rewrite presentes_so_corda3_5 in *. cbn [length] in *.
  repeat split; try assumption.
  specialize (Hlabel 0%nat eq_refl).
  destruct (y_labels d) as [|l [|l' t]]; try discriminate.
  now injection Hlabel as ->.
Defined.

(** * Missing files and uncaught errors *)

Lemma distintos_NoDup (l : list string) : distintos l = true -> NoDup l.
Proof.
  induction l as [|x t IH]; cbn [distintos]; intros H; [constructor|].
  apply andb_prop in H as [Hx Ht]. constructor; [|now apply IH].
  intros Hin. apply negb_true_iff in Hx.
  assert (existsb (String.eqb x) t = true); [|congruence].
  apply existsb_exists. exists x. split; [assumption | apply String.eqb_refl].
Qed.

(** The 180 expected paths are pairwise different. *)
Lemma caminhos_distintos : NoDup (map caminho candidatos).
Proof. apply distintos_NoDup. vm_compute. reflexivity. Qed.

Lemma in_candidatos (n m : nat) :
  In (n, m) candidatos <-> (1 <= n <= 6 /\ 1 <= m <= 30)%nat.
Proof.
  unfold candidatos, range. rewrite in_flat_map. split.
  - intros [n' [Hn Hm]]. apply in_map_iff in Hm as [m' [[= <- <-] Hm]].
    apply in_seq in Hn. apply in_seq in Hm. cbn in *. lia.
  - intros [Hn Hm]. exists n. split; [apply in_seq; cbn; lia|].
    apply in_map. apply in_seq; cbn; lia.
Qed.

Lemma append_inj_l (s a b : string) : (s ++ a)%string = (s ++ b)%string -> a = b.
Proof. induction s as [|ch s IH]; cbn; [trivial | intros [= H]; auto]. Qed.

Lemma aviso_inj (p q : string) : aviso p = aviso q -> p = q.
Proof. unfold aviso. apply append_inj_l. Qed.

Lemma processando_neq_aviso (p q : string) : processando p <> aviso q.
Proof. unfold processando, aviso. cbn. discriminate. Qed.

Lemma printed_no_save_nil (tr : list event) :
  Forall (fun ev => is_save ev = false) tr -> saved tr = [].
Proof.
  induction 1 as [|ev tr Hev _ IH]; [reflexivity|].
  destruct ev; [exact IH | discriminate].
Qed.

Section Avisos.

Variable isfile : string -> bool.

Lemma linha_neq_aviso (c c0 : nat * nat) :
  caminho c <> caminho c0 ->
  forall line, linha isfile c = Print line -> line <> aviso (caminho c0).
Proof.
  intros Hne line. unfold linha. destruct (isfile (caminho c)); intros [= <-].
  - apply processando_neq_aviso.
  - intros Heq. now apply aviso_inj in Heq.
Qed.

Lemma count_aviso_absent (cs : list (nat * nat)) (c0 : nat * nat) :
  ~ In (caminho c0) (map caminho cs) ->
  count_occ string_dec (printed (map (linha isfile) cs)) (aviso (caminho c0)) = 0%nat.
Proof.
  induction cs as [|c cs IH]; intros Hnot; [reflexivity|].
  cbn [map] in *. destruct (linha isfile c) as [line|] eqn:Hline;
    [|unfold linha in Hline; discriminate].
  cbn [printed]. rewrite count_occ_cons_neq.
  - apply IH. intros Hin. apply Hnot. now right.
  - apply (linha_neq_aviso c c0); [|assumption].
    intros Heq. apply Hnot. now left.
Qed.

(** Over a list of pairwise different paths, an absent candidate gets its
    warning exactly once. *)
Lemma count_aviso (cs : list (nat * nat)) (c0 : nat * nat) :
  NoDup (map caminho cs) -> In c0 cs -> isfile (caminho c0) = false ->
  count_occ string_dec (printed (map (linha isfile) cs)) (aviso (caminho c0)) = 1%nat.
Proof.
  induction cs as [|c cs IH]; intros Hnd Hin Habs; [contradiction|].
  cbn [map] in *. apply NoDup_cons_iff in Hnd as [Hnotin Hnd].
  destruct (string_dec (caminho c) (caminho c0)) as [Heq|Hne].
  - assert (Hline : linha isfile c = Print (aviso (caminho c0))).
    { unfold linha. now rewrite Heq, Habs. }
    rewrite Hline. cbn [printed]. rewrite count_occ_cons_eq by reflexivity.
    f_equal. apply count_aviso_absent. now rewrite <- Heq.
  - destruct Hin as [->|Hin]; [congruence|].
    destruct (linha isfile c) as [line|] eqn:Hline;
      [|unfold linha in Hline; discriminate].
    cbn [printed]. rewrite count_occ_cons_neq by now apply (linha_neq_aviso c c0).
    now apply IH.
Qed.

End Avisos.

Lemma extrair_raise (L : librosa) (n m : nat) (e : exn) :
  carregar_limpar_audio L (filepath n m) SR 40 = Raise e ->
  extrair L n m = Raise e.
Proof. intros H. unfold extrair. now rewrite H. Qed.

(** C6: for an expected file that is absent the loop body prints exactly
    one warning naming the missing path, appends nothing and lets the loop
    go on to the next name, so that a run that visits all names has printed
    that warning exactly once; an error raised while a present file is
    decoded is not caught by the body, and the whole run ends with an
    uncaught exception, without any file written. *)
Theorem missing_file_skipped_errors_fatal (L : librosa) (isfile : string -> bool) :
  (forall d n m, isfile (filepath n m) = false ->
     loop_body L isfile d n m = ([Print (aviso (filepath n m))], Ok d)) /\
  (forall tr d n m, main_loop L isfile = (tr, Ok d) ->
     In (n, m) candidatos -> isfile (filepath n m) = false ->
     count_occ string_dec (printed tr) (aviso (filepath n m)) = 1%nat) /\
  (forall d n m e, isfile (filepath n m) = true ->
     carregar_limpar_audio L (filepath n m) SR 40 = Raise e ->
     loop_body L isfile d n m = ([Print (processando (filepath n m))], Raise e)) /\
  (forall n m e, In (n, m) candidatos -> isfile (filepath n m) = true ->
     carregar_limpar_audio L (filepath n m) SR 40 = Raise e ->
     exists tr e', script L isfile = (tr, Raise e') /\ saved tr = []).
Proof.
  split; [|split; [|split]].
  - intros d n m Habs. exact (corpo_ausente L isfile d (n, m) Habs).
  - intros tr d n m Hrun Hin Habs.
    destruct (main_loop_ok L isfile tr d Hrun) as [-> _].
    exact (count_aviso isfile candidatos (n, m) caminhos_distintos Hin Habs).
  - intros d n m e Hpres Hload.
    pose proof (corpo_presente L isfile d (n, m) Hpres) as Hbody.
    cbn [fst snd] in Hbody. rewrite (extrair_raise L n m e Hload) in Hbody.
    exact Hbody.
  - intros n m e Hin Hpres Hload.
    destruct (run_raise L isfile candidatos vazio (n, m) e Hin Hpres
                (extrair_raise L n m e Hload)) as [tr [e' Hrun]].
    rewrite <- main_loop_candidatos in Hrun.
    exists tr, e'. split; [now apply script_raise|].
    apply printed_no_save_nil.
    pose proof (run_no_save L isfile candidatos vazio) as Hns.
    rewrite <- main_loop_candidatos, Hrun in Hns. exact Hns.
Qed.

Lemma missing_file_skipped_errors_fatal_witness :
  loop_body librosa_corrompido so_corda3_5 vazio 1 1
    = ([Print (aviso (filepath 1 1))], Ok vazio) /\
  loop_body librosa_corrompido so_corda3_5 vazio 3 5
    = ([Print (processando (filepath 3 5))], Raise (LibrosaError "NoBackendError")) /\
  exists tr e', script librosa_corrompido so_corda3_5 = (tr, Raise e') /\ saved tr = [].
Proof.
  destruct (missing_file_skipped_errors_fatal librosa_corrompido so_corda3_5)
    as [Habs [_ [Hbody Hrun]]].
  split; [apply Habs; reflexivity|].
  split; [apply Hbody; reflexivity|].
  apply (Hrun 3%nat 5%nat (LibrosaError "NoBackendError")); try reflexivity.
  apply in_candidatos. lia.
Defined.

(** * Persistence *)

(** C9: in every execution, a write of an output file occurs only after
    the loop has visited all 180 candidate names and processed every
    present one without error: the first 180 events of such a run are the
    loop's own lines, and every [Save] comes after them.  A run whose loop
    is aborted by an uncaught error therefore writes nothing. *)
Theorem saves_only_after_loop (L : librosa) (isfile : string -> bool)
        (i : nat) (file : string) (arr : ndarray) :
  nth_error (fst (script L isfile)) i = Some (Save file arr) ->
  exists tr d,
    main_loop L isfile = (tr, Ok d) /\
    tr = map (linha isfile) candidatos /\
    length tr = 180%nat /\
    firstn 180 (fst (script L isfile)) = tr /\
    (180 <= i)%nat.
Proof.
  intros Hsave.
  pose proof (run_no_save L isfile candidatos vazio) as Hns.
  rewrite <- main_loop_candidatos in Hns.
  destruct (main_loop L isfile) as [tr [d|e]] eqn:Hloop; cbn [fst] in Hns.
  - destruct (main_loop_ok L isfile tr d Hloop) as [Htr _].
    assert (Hlen : length tr = 180%nat)
      by (rewrite Htr, length_map; exact length_candidatos).
    destruct (script_trace_split L isfile tr d Hloop) as [tail [r Hscript]].
    rewrite Hscript in *. cbn [fst] in *.
    exists tr, d. split; [reflexivity|]. split; [assumption|]. split; [assumption|].
    split.
    + rewrite <- Hlen, firstn_app, firstn_all, Nat.sub_diag.
      cbn [firstn]. apply app_nil_r.
    + destruct (Nat.le_gt_cases 180 i) as [Hle|Hlt]; [assumption|exfalso].
      rewrite nth_error_app1 in Hsave by lia.
      apply nth_error_In in Hsave.
      rewrite Forall_forall in Hns. specialize (Hns _ Hsave). discriminate.
  - exfalso. rewrite (script_raise L isfile tr e Hloop) in Hsave. cbn [fst] in Hsave.
    apply nth_error_In in Hsave.
    rewrite Forall_forall in Hns. specialize (Hns _ Hsave). discriminate.
Qed.

Lemma script_diretorio_vazio_184 :
  nth_error (fst (script librosa_exemplo diretorio_vazio)) 184
  = Some (Save "X_fft.npy" array_vazio).
Proof. vm_compute. reflexivity. Qed.

Lemma saves_only_after_loop_witness :
  exists tr d,
    main_loop librosa_exemplo diretorio_vazio = (tr, Ok d) /\
    length tr = 180%nat /\
    firstn 180 (fst (script librosa_exemplo diretorio_vazio)) = tr.
Proof.
  destruct (saves_only_after_loop librosa_exemplo diretorio_vazio 184
              "X_fft.npy" array_vazio script_diretorio_vazio_184)
    as [tr [d [Hloop [_ [Hlen [Hfirst _]]]]]].
  exists tr, d. repeat split; assumption.
Defined.

(** * Freezing the lists into arrays *)

Section EmptyRun.

Variable L : librosa.
Variable isfile : string -> bool.

(** A loop over absent files only prints their warnings. *)
Lemma run_all_absent (cs : list (nat * nat)) (d : dataset) :
  (forall c, In c cs -> isfile (caminho c) = false) ->
  for_each cs (corpo L isfile) d
  = (map (fun c => Print (aviso (caminho c))) cs, Ok d).
Proof.
  induction cs as [|c cs IH]; intros Habs; cbn [for_each map]; [reflexivity|].
  rewrite (corpo_ausente L isfile d c) by (apply Habs; now left).
  cbn [bind]. rewrite IH by (intros c' Hc'; apply Habs; now right).
  reflexivity.
Qed.

Lemma saved_app (tr tr' : list event) : saved (tr ++ tr') = saved tr ++ saved tr'.
Proof.
  induction tr as [|[line|file arr] tr IH]; cbn [app saved]; [reflexivity| |];
    now rewrite IH.
Qed.

Lemma saved_script_ok (tr : list event) (d : dataset) (X_fft X_mel y : ndarray) :
  main_loop L isfile = (tr, Ok d) ->
  saved (tr ++ relatorio X_fft X_mel y)
  = [("X_fft.npy"%string, X_fft); ("X_mel.npy"%string, X_mel);
     ("y_labels.npy"%string, y)].
Proof.
  intros Hloop. rewrite saved_app.
  pose proof (run_no_save L isfile candidatos vazio) as Hns.
  rewrite <- main_loop_candidatos, Hloop in Hns. cbn [fst] in Hns.
  now rewrite (printed_no_save_nil tr Hns).
Qed.

End EmptyRun.

Lemma Forall2_In_r {A B : Type} (P : A -> B -> Prop) (l : list A) (l' : list B) (b : B) :
  Forall2 P l l' -> In b l' -> exists a, In a l /\ P a b.
Proof.
  induction 1 as [|x y l l' Hxy _ IH]; intros Hin; [contradiction|].
  destruct Hin as [->|Hin]; [exists x; split; [now left | assumption]|].
  destruct (IH Hin) as [a [Ha Hab]]. exists a; split; [now right | assumption].
Qed.

(** The arrays that the freeze step builds: of shape [(k, 1025)],
    [(k, 40)] and [(k,)] when the number [k] of samples found is at least
    1, and the empty one-dimensional array, three times, when no sample
    was found. *)
Theorem script_freezes (L : librosa) (isfile : string -> bool) :
  librosa_shapes L ->
  (forall tr d, main_loop L isfile = (tr, Ok d) ->
     length tr = 180%nat /\
     exists X_fft X_mel y,
       script L isfile = (tr ++ relatorio X_fft X_mel y, Ok tt) /\
       saved (tr ++ relatorio X_fft X_mel y)
       = [("X_fft.npy"%string, X_fft); ("X_mel.npy"%string, X_mel);
          ("y_labels.npy"%string, y)] /\
       match length (presentes isfile) with
       | O => X_fft = array_vazio /\ X_mel = array_vazio /\ y = array_vazio
       | S k => shape X_fft = [S k; 1025%nat] /\ shape X_mel = [S k; 40%nat] /\
                shape y = [S k]
       end) /\
  ((forall c, In c candidatos -> isfile (caminho c) = false) ->
     script L isfile
     = (map (fun c => Print (aviso (caminho c))) candidatos
        ++ relatorio array_vazio array_vazio array_vazio, Ok tt) /\
     length (map (fun c => Print (aviso (caminho c))) candidatos) = 180%nat /\
     shape array_vazio = [0%nat]).
Proof.
  intros HL; split.
  - intros tr d Hloop.
    destruct (main_loop_ok L isfile tr d Hloop) as [Htr [rows [Hrows [Hfft [Hmel Hlab]]]]].
    split; [rewrite Htr, length_map; exact length_candidatos|].
    pose proof (Forall2_length Hrows) as Hlen.
    assert (Hsizes : forall row, In row rows ->
              length (fst row) = 1025%nat /\ length (snd row) = 40%nat).
    { intros row Hrow. destruct (Forall2_In_r _ _ _ row Hrows Hrow) as [c [_ Hc]].
      exact (extrair_lengths L _ _ row HL Hc). }
    destruct (presentes isfile) as [|c ps]; cbn [length] in *.
    + destruct rows; [|discriminate]. cbn [map] in *.
      exists array_vazio, array_vazio, array_vazio.
      assert (Hs : script L isfile
                   = (tr ++ relatorio array_vazio array_vazio
                                (np_array_ints (y_labels d)), Ok tt))
        by (apply script_ok; [assumption | now rewrite Hfft | now rewrite Hmel]).
      rewrite Hlab in Hs. cbn [np_array_ints] in Hs.
      split; [exact Hs|]. split; [now apply (saved_script_ok L isfile tr d)|].
      repeat split.
    + destruct rows as [|row rows]; [discriminate|].
      assert (Hf : np_array_rows (X_fft_list d)
                   = Ok (Float64Array [length (X_fft_list d); 1025%nat]
                                      (concat (X_fft_list d)))).
      { apply np_array_rows_uniform; rewrite Hfft; [discriminate|].
        intros r Hr. apply in_map_iff in Hr as [row' [<- Hrow']].
        now apply Hsizes. }
      assert (Hm : np_array_rows (X_mel_list d)
                   = Ok (Float64Array [length (X_mel_list d); 40%nat]
                                      (concat (X_mel_list d)))).
      { apply np_array_rows_uniform; rewrite Hmel; [discriminate|].
        intros r Hr. apply in_map_iff in Hr as [row' [<- Hrow']].
        now apply Hsizes. }
      eexists _, _, _.
      split; [exact (script_ok L isfile tr d _ _ Hloop Hf Hm)|].
      split; [now apply (saved_script_ok L isfile tr d)|].
      cbn [shape]. rewrite Hfft, Hmel, Hlab, !length_map, <- Hlen.
      cbn [map np_array_ints shape length]. now rewrite length_map.
  - intros Habs.
    pose proof (run_all_absent L isfile candidatos vazio Habs) as Hloop.
    rewrite <- main_loop_candidatos in Hloop.
    split; [|split; [rewrite length_map; exact length_candidatos | reflexivity]].
    now apply (script_ok L isfile _ vazio).
Qed.

Lemma script_freezes_witness :
  script librosa_exemplo diretorio_vazio
  = (map (fun c => Print (aviso (caminho c))) candidatos
     ++ relatorio array_vazio array_vazio array_vazio, Ok tt).
Proof.
  destruct (script_freezes librosa_exemplo diretorio_vazio librosa_exemplo_shapes)
    as [_ Hvazio].
  now destruct (Hvazio (fun c _ => eq_refl)) as [Hs _].
Defined.

Lemma saved_script_diretorio_vazio :
  saved (fst (script librosa_exemplo diretorio_vazio))
  = [("X_fft.npy"%string, array_vazio); ("X_mel.npy"%string, array_vazio);
     ("y_labels.npy"%string, array_vazio)].
Proof. vm_compute. reflexivity. Qed.

(** On the empty directory of the examples the feature arrays that are
    written have shape [(0,)], not [(0, 1025)] and [(0, 40)]. *)
Lemma freeze_shapes_fail_on_empty_directory :
  ~ freeze_shapes_for_any_count librosa_exemplo diretorio_vazio.
Proof.
  intros [tr [X_fft [X_mel [y [Hscript [Hsaved [Hshape _]]]]]]].
  pose proof saved_script_diretorio_vazio as Hreal.
  rewrite Hscript in Hreal. cbn [fst] in Hreal.
  rewrite Hsaved in Hreal. injection Hreal as -> _ _.
  cbn [shape array_vazio] in Hshape. discriminate.
Qed.

Lemma saved_map_print {A : Type} (f : A -> string) (l : list A) :
  saved (map (fun a => Print (f a)) l) = [].
Proof. induction l as [|a l IH]; cbn [map saved]; [reflexivity | exact IH]. Qed.

(** C7: what the code does on a base directory without any expected file.
    The run prints the 180 warnings, raises nothing and writes three
    arrays, but [np.array] of an empty list is one-dimensional: each of
    the three arrays has shape [(0,)], so [X_fft] and [X_mel] do not have
    the shapes [(0, 1025)] and [(0, 40)] that the freeze step has for
    every other number of samples. *)
Theorem empty_directory_arrays_are_one_dimensional
        (L : librosa) (isfile : string -> bool) :
  (forall c, In c candidatos -> isfile (caminho c) = false) ->
  script L isfile
  = (map (fun c => Print (aviso (caminho c))) candidatos
     ++ relatorio array_vazio array_vazio array_vazio, Ok tt) /\
  length (map (fun c => Print (aviso (caminho c))) candidatos) = 180%nat /\
  saved (fst (script L isfile))
  = [("X_fft.npy"%string, array_vazio); ("X_mel.npy"%string, array_vazio);
     ("y_labels.npy"%string, array_vazio)] /\
  shape array_vazio = [0%nat] /\
  ~ freeze_shapes_for_any_count L isfile.
Proof.
  intros Habs.
  pose proof (run_all_absent L isfile candidatos vazio Habs) as Hloop.
  rewrite <- main_loop_candidatos in Hloop.
  assert (Hscript : script L isfile
                    = (map (fun c => Print (aviso (caminho c))) candidatos
                       ++ relatorio array_vazio array_vazio array_vazio, Ok tt))
    by now apply (script_ok L isfile _ vazio).
  assert (Hsaved : saved (fst (script L isfile))
                   = [("X_fft.npy"%string, array_vazio); ("X_mel.npy"%string, array_vazio);
                      ("y_labels.npy"%string, array_vazio)]).
  { rewrite Hscript. cbn [fst]. rewrite saved_app, saved_map_print. reflexivity. }
  split; [exact Hscript|].
  split; [rewrite length_map; exact length_candidatos|].
  split; [exact Hsaved|]. split; [reflexivity|].
  intros [tr [X_fft [X_mel [y [Hs [Hsv [Hshape _]]]]]]].
  rewrite Hs in Hsaved. cbn [fst] in Hsaved. rewrite Hsv in Hsaved.
  injection Hsaved as -> _ _.
  cbn [shape array_vazio] in Hshape. discriminate.
Qed.

Lemma empty_directory_arrays_are_one_dimensional_witness :
  saved (fst (script librosa_exemplo diretorio_vazio))
  = [("X_fft.npy"%string, array_vazio); ("X_mel.npy"%string, array_vazio);
     ("y_labels.npy"%string, array_vazio)] /\
  ~ freeze_shapes_for_any_count librosa_exemplo diretorio_vazio.
Proof.
  destruct (empty_directory_arrays_are_one_dimensional librosa_exemplo diretorio_vazio
              (fun c _ => eq_refl)) as [_ [_ [Hsaved [_ Hnot]]]].
  split; assumption.
Defined.


(** * Further properties of the loader *)

(** X1: on a decoded file whose trimmed signal has a sample,
    [carregar_limpar_audio] returns a signal of the same length, with the
    sample rate that [load] reported; every returned sample lies between
    -1 and 1, no sample changes sign (non-negative samples stay
    non-negative, non-positive ones stay non-positive), and the order of
    the sample values is kept. *)
Theorem carregar_limpar_audio_keeps_signs_and_order
        (L : librosa) (path : string) (sr sr' : Z) (top_db : R)
        (y y_trim : list R) (idx : nat * nat) :
  load L path sr = Ok (y, sr') ->
  trim L y top_db = Ok (y_trim, idx) ->
  y_trim <> [] ->
  exists out,
    carregar_limpar_audio L path sr top_db = Ok (out, sr') /\
    length out = length y_trim /\
    (forall i v, nth_error y_trim i = Some v ->
       exists w, nth_error out i = Some w /\
                 -1 <= w <= 1 /\ (0 <= v -> 0 <= w) /\ (v <= 0 -> w <= 0)) /\
    (forall i j v v', nth_error y_trim i = Some v -> nth_error y_trim j = Some v' ->
       v <= v' ->
       exists w w', nth_error out i = Some w /\ nth_error out j = Some w' /\ w <= w').
Proof.
  intros Hload Htrim Hne.
  destruct (np_max_nonempty (np_abs y_trim)) as [m Hm].
  { intros Heq. apply Hne. now apply map_eq_nil in Heq. }
  pose proof (np_max_is_max _ _ Hm) as Hmax.
  pose proof (np_abs_nonneg _ _ Hmax) as Hm0.
  remember (m + 1e-9) as c eqn:Hceq.
  assert (Hc : 0 < c) by lra.
  assert (Hinv : 0 < / c) by now apply Rinv_0_lt_compat.
  exists (map (fun v => v / c) y_trim).
  split.
  { unfold carregar_limpar_audio.
    rewrite Hload; cbn [rbind]. rewrite Htrim; cbn [rbind]. rewrite Hm; cbn [rbind].
    now rewrite <- Hceq. }
  split; [apply length_map|]. split.
  - intros i v Hv. exists (v / c). rewrite nth_error_map, Hv.
    split; [reflexivity|].
    assert (Habs : Rabs v <= m).
    { apply (proj2 Hmax). unfold np_abs. apply in_map.
      eapply nth_error_In; eauto. }
    assert (Hle : Rabs (v / c) <= 1).
    { unfold Rdiv. rewrite Rabs_mult, Rabs_inv, (Rabs_right c) by lra.
      apply (Rmult_le_reg_r c); [assumption|].
      rewrite Rmult_assoc, Rinv_l by lra. lra. }
    split; [|split].
    + unfold Rabs in Hle. destruct (Rcase_abs (v / c)); lra.
    + intros H0. unfold Rdiv. apply Rmult_le_pos; lra.
    + intros H0. unfold Rdiv.
      replace (v * / c) with (- ((- v) * / c)) by lra.
      assert (0 <= (- v) * / c) by (apply Rmult_le_pos; lra). lra.
  - intros i j v v' Hv Hv' Hle. exists (v / c), (v' / c).
    rewrite !nth_error_map, Hv, Hv'. repeat split.
    unfold Rdiv. apply Rmult_le_compat_r; lra.
Qed.

Lemma carregar_limpar_audio_keeps_signs_and_order_witness :
  exists out,
    carregar_limpar_audio librosa_exemplo "corda1_1.wav" SR 40 = Ok (out, SR) /\
    length out = 3%nat /\
    exists w, nth_error out 1 = Some w /\ -1 <= w <= 1 /\ w <= 0.
Proof.
  destruct (carregar_limpar_audio_keeps_signs_and_order librosa_exemplo
              "corda1_1.wav" SR SR 40 sinal_exemplo sinal_exemplo (0%nat, 3%nat)
              eq_refl eq_refl)
    as [out [Heq [Hlen [Hsample _]]]].
  - discriminate.
  - exists out. split; [exact Heq|]. split; [exact Hlen|].
    destruct (Hsample 1%nat (-1) eq_refl) as [w [Hw [Hrange [_ Hneg]]]].
    exists w. split; [exact Hw|]. split; [exact Hrange | apply Hneg; lra].
Defined.

(** X2: the [1e-9] term guards the division, not the maximum: a present
    expected file whose trimmed signal has no sample makes [np.max] raise
    [ValueError] inside the loop body, and the run ends with an uncaught
    exception before anything is written. *)
Theorem empty_clip_aborts_run
        (L : librosa) (isfile : string -> bool) (n m : nat)
        (y : list R) (sr' : Z) (idx : nat * nat) :
  In (n, m) candidatos ->
  isfile (filepath n m) = true ->
  load L (filepath n m) SR = Ok (y, sr') ->
  trim L y 40 = Ok ([], idx) ->
  (forall d, exists msg,
     loop_body L isfile d n m
     = ([Print (processando (filepath n m))], Raise (ValueError msg))) /\
  exists tr e, script L isfile = (tr, Raise e) /\ saved tr = [].
Proof.
  intros Hin Hpres Hload Htrim.
  destruct (carregar_limpar_audio_empty L _ _ _ _ _ _ Hload Htrim) as [msg Hraise].
  split.
  - intros d. exists msg.
    pose proof (corpo_presente L isfile d (n, m) Hpres) as Hbody.
    cbn [fst snd] in Hbody.
    now rewrite (extrair_raise L n m _ Hraise) in Hbody.
  - destruct (run_raise L isfile candidatos vazio (n, m) _ Hin Hpres
                (extrair_raise L n m _ Hraise)) as [tr [e Hrun]].
    rewrite <- main_loop_candidatos in Hrun.
    exists tr, e. split; [now apply script_raise|].
    apply printed_no_save_nil.
    pose proof (run_no_save L isfile candidatos vazio) as Hns.
    rewrite <- main_loop_candidatos, Hrun in Hns. exact Hns.
Qed.

Lemma empty_clip_aborts_run_witness :
  exists tr e, script librosa_corte_total so_corda3_5 = (tr, Raise e) /\ saved tr = [].
Proof.
  destruct (empty_clip_aborts_run librosa_corte_total so_corda3_5 3 5
              sinal_exemplo SR (0%nat, 0%nat)) as [_ H]; try reflexivity.
  - apply in_candidatos. lia.
  - exact H.
Defined.

(** * Further properties of the decibel conversion *)

Lemma db_of_silent (ref p : R) :
  p <= amin_default -> ref <= amin_default -> db_of ref p = 0.
Proof.
  intros Hp Href. unfold db_of, top_db_default.
  rewrite (Rmax_left amin_default p), (Rmax_left amin_default ref) by assumption.
  rewrite Rmax_left; lra.
Qed.

Lemma db_of_mono (ref p q : R) : p <= q -> db_of ref p <= db_of ref q.
Proof.
  intros Hpq. unfold db_of. apply Rmax_lub; [|apply Rmax_r].
  eapply Rle_trans; [|apply Rmax_l].
  assert (log10 (Rmax amin_default p) <= log10 (Rmax amin_default q)); [|lra].
  apply log10_le.
  - eapply Rlt_le_trans; [exact amin_default_pos | apply Rmax_l].
  - apply Rmax_lub; [apply Rmax_l | eapply Rle_trans; [exact Hpq | apply Rmax_r]].
Qed.

Lemma db_of_floor (ref p : R) :
  1e-2 <= ref -> p <= 1e-8 * ref -> db_of ref p = -80.
Proof.
  intros Href Hp. pose proof amin_default_pos as Ha.
  unfold db_of, top_db_default.
  assert (Hamin : amin_default <= ref / 10 ^ 8) by (unfold amin_default; lra).
  rewrite (Rmax_right amin_default ref) by lra.
  assert (Hlog : log10 (Rmax amin_default p) <= log10 (ref / 10 ^ 8)).
  { apply log10_le.
    - eapply Rlt_le_trans; [exact Ha | apply Rmax_l].
    - apply Rmax_lub; [assumption | lra]. }
  rewrite log10_div, log10_pow10 in Hlog by (try apply pow_lt; lra).
  replace (INR 8) with 8 in Hlog by (rewrite INR_IZR_INZ; reflexivity).
  rewrite Rmax_right; lra.
Qed.

Lemma db_of_quiet (ref p : R) :
  1e-10 <= ref <= 1e-2 -> p <= 1e-10 ->
  db_of ref p = 10 * log10 (1e-10 / ref).
Proof.
  change 1e-10 with amin_default.
  assert (Hval : amin_default = / 10 ^ 10) by (unfold amin_default; lra).
  intros [Hlo Hhi] Hp. unfold db_of, top_db_default.
  rewrite (Rmax_left amin_default p), (Rmax_right amin_default ref) by assumption.
  rewrite (log10_div amin_default ref) by lra.
  assert (Hlog : log10 (/ 10 ^ 8) <= log10 (amin_default / ref)).
  { apply log10_le; [apply Rinv_0_lt_compat, pow_lt; lra|].
    apply (Rmult_le_reg_r ref); [lra|].
    unfold Rdiv at 1. rewrite Rmult_assoc, Rinv_l by lra. lra. }
  rewrite log10_inv_pow10, (log10_div amin_default ref) in Hlog by lra.
  replace (INR 8) with 8 in Hlog by (rewrite INR_IZR_INZ; reflexivity).
  rewrite Rmax_left; lra.
Qed.

Lemma map_const_repeat {A B : Type} (c : B) (l : list A) :
  map (fun _ => c) l = repeat c (length l).
Proof. induction l as [|a l IH]; cbn; [reflexivity | now rewrite IH]. Qed.

Lemma map_db_of_silent (P : list R) (ref : R) :
  is_max ref P -> (forall p, In p P -> p <= 1e-10) ->
  map (db_of ref) P = repeat 0 (length P).
Proof.
  intros [Hin _] Hall. rewrite <- map_const_repeat. apply map_ext_in.
  intros p Hp. apply db_of_silent; unfold amin_default; auto.
Qed.

(** X3: a clip whose time-averaged power does not exceed [1e-10] in any
    bin (a silent clip) is not an error: both summarizers return a
    decibel vector that is 0 in every position. *)
Theorem silent_clip_gives_flat_zero (L : librosa) (y : list R) (sr : Z)
        (n_fft hop n_mels : nat) :
  (forall X, stft L y n_fft hop = Ok X -> X <> [] ->
     (forall p, In p (potencia_media X) -> p <= 1e-10) ->
     exists freqs,
       espectro_fft_medio L y sr n_fft hop = Ok (freqs, repeat 0 (length X))) /\
  (forall S_mel, melspectrogram L y sr n_fft hop n_mels 2 = Ok S_mel -> S_mel <> [] ->
     (forall p, In p (np_mean_axis1 S_mel) -> p <= 1e-10) ->
     exists mel_freqs,
       espectro_mel_medio L y sr n_fft hop n_mels
       = Ok (mel_freqs, repeat 0 (length S_mel))).
Proof.
  split.
  - intros X HX Hne Hall.
    destruct (espectro_fft_medio_eq L y sr _ _ X HX Hne) as [ref [Href ->]].
    rewrite (map_db_of_silent _ ref (np_max_is_max _ _ Href) Hall).
    rewrite length_potencia_media. eauto.
  - intros S_mel HS Hne Hall.
    destruct (espectro_mel_medio_eq L y sr _ _ _ S_mel HS Hne) as [ref [Href ->]].
    rewrite (map_db_of_silent _ ref (np_max_is_max _ _ Href) Hall).
    rewrite length_np_mean_axis1. eauto.
Qed.

Lemma potencia_media_repeat (a : R) (n : nat) :
  potencia_media (repeat [mkC a 0] n) = repeat (a * a) n.
Proof.
  unfold potencia_media, np_mean_axis1. rewrite !map_repeat. f_equal.
  unfold np_sum, Cabs; cbn [map fold_left length Re Im INR].
  rewrite pow2_sqrt; [lra | nra].
Qed.

Lemma np_mean_axis1_repeat (a : R) (n : nat) :
  np_mean_axis1 (repeat [a] n) = repeat a n.
Proof.
  unfold np_mean_axis1. rewrite map_repeat. f_equal.
  unfold np_sum; cbn [fold_left length INR]. lra.
Qed.

Lemma silent_clip_gives_flat_zero_witness :
  (exists freqs,
     espectro_fft_medio librosa_silencio sinal_exemplo SR N_FFT HOP_LENGTH
     = Ok (freqs, repeat 0 1025)) /\
  (exists mel_freqs,
     espectro_mel_medio librosa_silencio sinal_exemplo SR N_FFT HOP_LENGTH N_MELS
     = Ok (mel_freqs, repeat 0 40)).
Proof.
  destruct (silent_clip_gives_flat_zero librosa_silencio sinal_exemplo SR
              N_FFT HOP_LENGTH N_MELS) as [Hfft Hmel].
  split.
  - destruct (Hfft (repeat [mkC 0 0] 1025) eq_refl) as [freqs Heq].
    + discriminate.
    + intros p Hp. rewrite potencia_media_repeat in Hp.
      apply repeat_spec in Hp. subst p. lra.
    + exists freqs. rewrite Heq. now rewrite repeat_length.
  - destruct (Hmel (repeat [0] 40) eq_refl) as [mel_freqs Heq].
    + discriminate.
    + intros p Hp. rewrite np_mean_axis1_repeat in Hp.
      apply repeat_spec in Hp. subst p. lra.
    + exists mel_freqs. rewrite Heq. now rewrite repeat_length.
Defined.

Lemma is_max_nonempty (ref : R) (P : list R) : is_max ref P -> P <> [].
Proof. intros [Hin _] ->. contradiction. Qed.

Lemma potencia_media_nonempty (X : list (list complex)) :
  potencia_media X <> [] -> X <> [].
Proof. intros HP ->. now apply HP. Qed.

(** [espectro_fft_medio] once the STFT and the peak of its averaged power
    are known. *)
Lemma espectro_fft_medio_with_ref (L : librosa) (y : list R) (sr : Z)
      (n_fft hop : nat) (X : list (list complex)) (ref : R) :
  stft L y n_fft hop = Ok X -> is_max ref (potencia_media X) ->
  espectro_fft_medio L y sr n_fft hop
  = Ok (np_linspace 0 (IZR sr / 2) (length X), map (db_of ref) (potencia_media X)).
Proof.
  intros HX Hmax.
  destruct (espectro_fft_medio_eq L y sr _ _ X HX) as [ref' [Href' Heq]].
  - apply potencia_media_nonempty. eapply is_max_nonempty; eauto.
  - rewrite Heq. now rewrite (is_max_unique _ _ _ Hmax (np_max_is_max _ _ Href')).
Qed.

Lemma espectro_mel_medio_with_ref (L : librosa) (y : list R) (sr : Z)
      (n_fft hop n_mels : nat) (S_mel : list (list R)) (ref : R) :
  melspectrogram L y sr n_fft hop n_mels 2 = Ok S_mel ->
  is_max ref (np_mean_axis1 S_mel) ->
  espectro_mel_medio L y sr n_fft hop n_mels
  = Ok (mel_frequencies L n_mels 0 (IZR sr / 2), map (db_of ref) (np_mean_axis1 S_mel)).
Proof.
  intros HS Hmax.
  destruct (espectro_mel_medio_eq L y sr _ _ _ S_mel HS) as [ref' [Href' Heq]].
  - intros ->. now apply (is_max_nonempty _ _ Hmax).
  - rewrite Heq. now rewrite (is_max_unique _ _ _ Hmax (np_max_is_max _ _ Href')).
Qed.

(** X4: when the loudest bin has averaged power at least [1e-2], every
    bin whose averaged power is at most [1e-8] times that of the loudest
    one (80 dB or more below it) is reported as exactly -80 dB by
    [espectro_fft_medio], however much weaker it is. *)
Theorem weak_bins_are_floored (L : librosa) (y : list R) (sr : Z)
        (n_fft hop : nat) (X : list (list complex)) (ref p : R) (i : nat) :
  stft L y n_fft hop = Ok X ->
  is_max ref (potencia_media X) ->
  nth_error (potencia_media X) i = Some p ->
  1e-2 <= ref -> p <= 1e-8 * ref ->
  exists freqs db,
    espectro_fft_medio L y sr n_fft hop = Ok (freqs, db) /\
    nth_error db i = Some (-80).
Proof.
  intros HX Hmax Hp Href Hweak.
  eexists _, _. split; [exact (espectro_fft_medio_with_ref L y sr _ _ X ref HX Hmax)|].
  rewrite nth_error_map, Hp. cbn [option_map]. f_equal.
  now apply db_of_floor.
Qed.

Lemma is_max_exemplo (n : nat) : is_max 1 (1 :: repeat 1e-10 n).
Proof.
  split; [now left|]. intros v [<-|Hv]; [lra|].
  apply repeat_spec in Hv. subst v; lra.
Qed.

Lemma weak_bins_are_floored_witness :
  exists freqs db,
    espectro_fft_medio librosa_exemplo sinal_exemplo SR N_FFT HOP_LENGTH
    = Ok (freqs, db) /\
    nth_error db 1 = Some (-80).
Proof.
  assert (HP : potencia_media ([mkC 1 0] :: repeat [mkC 1e-5 0] (N_FFT / 2))
               = 1 :: repeat 1e-10 (S 1023)) by apply potencia_media_exemplo.
  apply (weak_bins_are_floored librosa_exemplo sinal_exemplo SR N_FFT HOP_LENGTH
           ([mkC 1 0] :: repeat [mkC 1e-5 0] (N_FFT / 2)) 1 1e-10 1).
  - reflexivity.
  - rewrite HP. apply is_max_exemplo.
  - rewrite HP. apply nth_error_second.
  - lra.
  - lra.
Defined.

(** X5: in a quiet sample, one whose loudest bin has averaged power [ref]
    between [1e-10] and [1e-2], the floor of [1e-10] on the power takes
    over from the 80 dB range: a bin of averaged power at most [1e-10] is
    reported as [10*log10(1e-10 / ref)], which is above -80 dB. *)
Theorem quiet_sample_has_reduced_range (L : librosa) (y : list R) (sr : Z)
        (n_fft hop : nat) (X : list (list complex)) (ref p : R) (i : nat) :
  stft L y n_fft hop = Ok X ->
  is_max ref (potencia_media X) ->
  nth_error (potencia_media X) i = Some p ->
  1e-10 <= ref <= 1e-2 -> p <= 1e-10 ->
  exists freqs db,
    espectro_fft_medio L y sr n_fft hop = Ok (freqs, db) /\
    nth_error db i = Some (10 * log10 (1e-10 / ref)) /\
    -80 <= 10 * log10 (1e-10 / ref).
Proof.
  intros HX Hmax Hp Href Hweak.
  eexists _, _. split; [exact (espectro_fft_medio_with_ref L y sr _ _ X ref HX Hmax)|].
  rewrite nth_error_map, Hp. cbn [option_map].
  rewrite <- (db_of_quiet ref p Href Hweak).
  split; [reflexivity | apply db_of_ge_floor].
Qed.

Lemma potencia_media_dois (a b : R) (n : nat) :
  potencia_media ([mkC a 0] :: repeat [mkC b 0] n) = a * a :: repeat (b * b) n.
Proof.
  change ([mkC a 0] :: repeat [mkC b 0] n)
    with (repeat [mkC a 0] 1 ++ repeat [mkC b 0] n).
  unfold potencia_media, np_mean_axis1. rewrite !map_app.
  fold (np_mean_axis1 (map (map (fun z => Cabs z ^ 2)) (repeat [mkC a 0] 1))).
  fold (potencia_media (repeat [mkC a 0] 1)).
  fold (np_mean_axis1 (map (map (fun z => Cabs z ^ 2)) (repeat [mkC b 0] n))).
  fold (potencia_media (repeat [mkC b 0] n)).
  now rewrite !potencia_media_repeat.
Qed.

Lemma quiet_sample_has_reduced_range_witness :
  exists freqs db,
    espectro_fft_medio librosa_baixo sinal_exemplo SR N_FFT HOP_LENGTH
    = Ok (freqs, db) /\
    nth_error db 1 = Some (10 * log10 (1e-10 / (1e-2 * 1e-2))) /\
    -80 <= 10 * log10 (1e-10 / (1e-2 * 1e-2)).
Proof.
  assert (HP : potencia_media ([mkC 1e-2 0] :: repeat [mkC 0 0] (N_FFT / 2))
               = 1e-2 * 1e-2 :: repeat (0 * 0) (S 1023)) by apply potencia_media_dois.
  apply (quiet_sample_has_reduced_range librosa_baixo sinal_exemplo SR N_FFT HOP_LENGTH
           ([mkC 1e-2 0] :: repeat [mkC 0 0] (N_FFT / 2)) (1e-2 * 1e-2) (0 * 0) 1).
  - reflexivity.
  - rewrite HP. split; [now left|]. intros v [<-|Hv]; [lra|].
    apply repeat_spec in Hv. subst v; lra.
  - rewrite HP. apply nth_error_second.
  - lra.
  - lra.
Defined.

(** X6: the decibel conversion keeps the order of the bins: a bin with
    more averaged Mel power never gets a smaller value from
    [espectro_mel_medio], and likewise for [espectro_fft_medio]. *)
Theorem db_keeps_order (L : librosa) (y : list R) (sr : Z)
        (n_fft hop n_mels : nat) :
  (forall S_mel, melspectrogram L y sr n_fft hop n_mels 2 = Ok S_mel -> S_mel <> [] ->
     exists mel_freqs db,
       espectro_mel_medio L y sr n_fft hop n_mels = Ok (mel_freqs, db) /\
       forall i j p q, nth_error (np_mean_axis1 S_mel) i = Some p ->
                       nth_error (np_mean_axis1 S_mel) j = Some q -> p <= q ->
         exists a b, nth_error db i = Some a /\ nth_error db j = Some b /\ a <= b) /\
  (forall X, stft L y n_fft hop = Ok X -> X <> [] ->
     exists freqs db,
       espectro_fft_medio L y sr n_fft hop = Ok (freqs, db) /\
       forall i j p q, nth_error (potencia_media X) i = Some p ->
                       nth_error (potencia_media X) j = Some q -> p <= q ->
         exists a b, nth_error db i = Some a /\ nth_error db j = Some b /\ a <= b).
Proof.
  assert (Hord : forall (P : list R) ref i j p q,
            nth_error P i = Some p -> nth_error P j = Some q -> p <= q ->
            exists a b, nth_error (map (db_of ref) P) i = Some a /\
                        nth_error (map (db_of ref) P) j = Some b /\ a <= b).
  { intros P ref i j p q Hi Hj Hpq. exists (db_of ref p), (db_of ref q).
    rewrite !nth_error_map, Hi, Hj. repeat split. now apply db_of_mono. }
  split.
  - intros S_mel HS Hne.
    destruct (espectro_mel_medio_eq L y sr _ _ _ S_mel HS Hne) as [ref [_ Heq]].
    eexists _, _. split; [exact Heq | apply Hord].
  - intros X HX Hne.
    destruct (espectro_fft_medio_eq L y sr _ _ X HX Hne) as [ref [_ Heq]].
    eexists _, _. split; [exact Heq | apply Hord].
Qed.

Lemma db_keeps_order_witness :
  exists freqs db,
    espectro_fft_medio librosa_exemplo sinal_exemplo SR N_FFT HOP_LENGTH
    = Ok (freqs, db) /\
    exists a b, nth_error db 1 = Some a /\ nth_error db 0 = Some b /\ a <= b.
Proof.
  destruct (db_keeps_order librosa_exemplo sinal_exemplo SR N_FFT HOP_LENGTH N_MELS)
    as [_ Hfft].
  destruct (Hfft ([mkC 1 0] :: repeat [mkC 1e-5 0] (N_FFT / 2)) eq_refl)
    as [freqs [db [Heq Hord]]]; [discriminate|].
  exists freqs, db. split; [exact Heq|].
  assert (HP : potencia_media ([mkC 1 0] :: repeat [mkC 1e-5 0] (N_FFT / 2))
               = 1 :: repeat 1e-10 (S 1023)) by apply potencia_media_exemplo.
  apply (Hord 1%nat 0%nat 1e-10 1).
  - rewrite HP. apply nth_error_second.
  - now rewrite HP.
  - lra.
Defined.

(** * The frequency axis *)

(** X8: for an even FFT size, the frequency vector of
    [espectro_fft_medio] holds the centre frequencies of the FFT bins:
    entry [i] is [i * sr / n_fft], for [i] from 0 to [n_fft/2]; with a
    positive sample rate the vector is strictly increasing. *)
Theorem frequency_axis_is_fft_bins (L : librosa) (y : list R) (sr : Z)
        (n_fft hop : nat) (X : list (list complex)) :
  librosa_shapes L ->
  stft L y n_fft hop = Ok X ->
  Nat.Even n_fft -> (2 <= n_fft)%nat ->
  exists freqs db,
    espectro_fft_medio L y sr n_fft hop = Ok (freqs, db) /\
    length freqs = (n_fft / 2 + 1)%nat /\
    (forall i, (i <= n_fft / 2)%nat -> nth i freqs 0 = INR i * IZR sr / INR n_fft) /\
    ((0 < sr)%Z -> forall i j, (i < j <= n_fft / 2)%nat ->
                               nth i freqs 0 < nth j freqs 0).
Proof.
  intros HL HX [k Hk] Hn.
  destruct (espectro_fft_medio_eq L y sr _ _ X HX (stft_nonempty L HL _ _ _ _ HX))
    as [ref [_ Heq]].
  pose proof (stft_rows L HL _ _ _ _ HX) as Hlen.
  assert (Hhalf : (n_fft / 2 = k)%nat)
    by (subst n_fft; rewrite Nat.mul_comm; apply Nat.div_mul; lia).
  rewrite Hhalf in *. rewrite Hlen in Heq.
  assert (Hk1 : (1 <= k)%nat) by lia.
  assert (HkR : 0 < INR k) by (apply lt_0_INR; lia).
  assert (HnR : INR n_fft = 2 * INR k) by (subst n_fft; rewrite mult_INR; simpl; lra).
  assert (Hnth : forall i, (i <= k)%nat ->
            nth i (np_linspace 0 (IZR sr / 2) (1 + k)) 0 = INR i * IZR sr / INR n_fft).
  { intros i Hi. rewrite nth_np_linspace by lia.
    replace (1 + k - 1)%nat with k by lia. rewrite HnR. field. lra. }
  eexists _, _. split; [exact Heq|].
  split; [rewrite length_np_linspace; lia|]. split; [exact Hnth|].
  intros Hsr i j [Hij Hj]. rewrite !Hnth by lia.
  assert (HsrR : 0 < IZR sr) by now apply IZR_lt.
  assert (Hlt : INR i < INR j) by now apply lt_INR.
  unfold Rdiv. apply Rmult_lt_compat_r; [apply Rinv_0_lt_compat; lra|].
  now apply Rmult_lt_compat_r.
Qed.

Lemma frequency_axis_is_fft_bins_witness :
  exists freqs db,
    espectro_fft_medio librosa_exemplo sinal_exemplo SR N_FFT HOP_LENGTH
    = Ok (freqs, db) /\
    length freqs = 1025%nat /\
    nth 1 freqs 0 = INR 1 * IZR SR / INR N_FFT /\
    nth 0 freqs 0 < nth 1 freqs 0.
Proof.
  destruct (frequency_axis_is_fft_bins librosa_exemplo sinal_exemplo SR
              N_FFT HOP_LENGTH _ librosa_exemplo_shapes eq_refl)
    as [freqs [db [Heq [Hlen [Hnth Hinc]]]]].
  - exists 1024%nat. reflexivity.
  - unfold N_FFT. lia.
  - exists freqs, db. split; [exact Heq|]. split; [exact Hlen|].
    split.
    + apply Hnth. change (N_FFT / 2)%nat with 1024%nat. lia.
    + apply Hinc; [reflexivity|]. change (N_FFT / 2)%nat with 1024%nat. lia.
Defined.

(** * Further properties of the accumulator *)

Lemma ordenado_fst_sorted (l : list (nat * nat)) :
  ordenado_fst l = true -> StronglySorted (fun a b => (fst a <= fst b)%nat) l.
Proof.
  induction l as [|a t IH]; cbn [ordenado_fst]; intros H; constructor.
  - apply IH. now apply andb_prop in H.
  - apply andb_prop in H as [H _]. apply Forall_forall. intros b Hb.
    apply Nat.leb_le. now apply (proj1 (forallb_forall _ _) H).
Qed.

Lemma candidatos_sorted : StronglySorted (fun a b => (fst a <= fst b)%nat) candidatos.
Proof. apply ordenado_fst_sorted. vm_compute. reflexivity. Qed.

Lemma filter_StronglySorted {A : Type} (R : A -> A -> Prop) (f : A -> bool) (l : list A) :
  StronglySorted R l -> StronglySorted R (filter f l).
Proof.
  induction 1 as [|a l Hl IH Ha]; cbn [filter]; [constructor|].
  destruct (f a); [|assumption]. constructor; [assumption|].
  apply Forall_forall. intros b Hb. apply filter_In in Hb as [Hb _].
  now apply (proj1 (Forall_forall _ _) Ha).
Qed.

Lemma map_StronglySorted {A B : Type} (R : B -> B -> Prop) (g : A -> B) (l : list A) :
  StronglySorted (fun a b => R (g a) (g b)) l -> StronglySorted R (map g l).
Proof.
  induction 1 as [|a l Hl IH Ha]; cbn [map]; constructor; [assumption|].
  apply Forall_forall. intros b Hb. apply in_map_iff in Hb as [x [<- Hx]].
  now apply (proj1 (Forall_forall _ _) Ha).
Qed.

Lemma StronglySorted_nth_error {A : Type} (R : A -> A -> Prop) (l : list A) :
  StronglySorted R l ->
  forall i j a b, (i < j)%nat ->
    nth_error l i = Some a -> nth_error l j = Some b -> R a b.
Proof.
  induction 1 as [|x l Hl IH Hx]; intros i j a b Hij Hi Hj.
  - destruct i; discriminate.
  - destruct j as [|j]; [lia|]. cbn [nth_error] in Hj. destruct i as [|i].
    + injection Hi as <-. apply (proj1 (Forall_forall _ _) Hx).
      eapply nth_error_In; eauto.
    + cbn [nth_error] in Hi. apply (IH i j); auto; lia.
Qed.

Lemma count_fst_filter_le (f : nat * nat -> bool) (cs : list (nat * nat)) (n : nat) :
  (count_occ Nat.eq_dec (map fst (filter f cs)) n
   <= count_occ Nat.eq_dec (map fst cs) n)%nat.
Proof.
  induction cs as [|c cs IH]; cbn [filter map count_occ]; [lia|].
  destruct (f c); cbn [map count_occ]; destruct (Nat.eq_dec (fst c) n); lia.
Qed.

Lemma count_fst_candidatos (n : nat) :
  (count_occ Nat.eq_dec (map fst candidatos) n <= 30)%nat.
Proof.
  destruct (Nat.le_gt_cases n 6) as [Hle|Hgt].
  - do 7 (destruct n as [|n]; [vm_compute; lia|]). lia.
  - rewrite (proj1 (count_occ_not_In Nat.eq_dec _ n)); [lia|].
    intros Hin. apply in_map_iff in Hin as [[n' m'] [Heq Hc]].
    cbn [fst] in Heq. subst n'. apply in_candidatos in Hc. lia.
Qed.

Section Labels.

Variable isfile : string -> bool.

Lemma labels_of_filter (cs : list (nat * nat)) :
  StronglySorted (fun a b => (fst a <= fst b)%nat) cs ->
  StronglySorted le (map fst (filter (fun c => isfile (caminho c)) cs)).
Proof. intros H. now apply map_StronglySorted, filter_StronglySorted. Qed.

End Labels.

(** X9: after a loop that ran to its end, every label is a string number
    from 1 to 6, the labels are in non-decreasing order, no string has
    more than 30 samples and there are at most 180 samples. *)
Theorem labels_are_ordered_string_numbers (L : librosa) (isfile : string -> bool)
        (tr : list event) (d : dataset) :
  main_loop L isfile = (tr, Ok d) ->
  Forall (fun n => 1 <= n <= 6)%nat (y_labels d) /\
  (forall i j a b, (i < j)%nat ->
     nth_error (y_labels d) i = Some a -> nth_error (y_labels d) j = Some b ->
     (a <= b)%nat) /\
  (forall n, (count_occ Nat.eq_dec (y_labels d) n <= 30)%nat) /\
  (length (y_labels d) <= 180)%nat.
Proof.
  intros Hrun.
  destruct (main_loop_ok L isfile tr d Hrun) as [_ [rows [_ [_ [_ Hlab]]]]].
  rewrite Hlab. unfold presentes.
  split; [|split; [|split]].
  - apply Forall_forall. intros n Hn.
    apply in_map_iff in Hn as [[n' m'] [Heq Hc]]. cbn [fst] in Heq. subst n'.
    apply filter_In in Hc as [Hc _]. apply in_candidatos in Hc. lia.
  - apply StronglySorted_nth_error, labels_of_filter, candidatos_sorted.
  - intros n. eapply Nat.le_trans;
      [apply count_fst_filter_le | apply count_fst_candidatos].
  - rewrite length_map, <- length_candidatos. apply filter_length_le.
Qed.

Lemma labels_are_ordered_string_numbers_witness :
  exists tr d,
    main_loop librosa_exemplo so_corda3_5 = (tr, Ok d) /\
    Forall (fun n => 1 <= n <= 6)%nat (y_labels d) /\
    (length (y_labels d) <= 180)%nat.
Proof.
  destruct (main_loop_exemplo so_corda3_5) as [tr [d Hrun]].
  exists tr, d.
  destruct (labels_are_ordered_string_numbers librosa_exemplo so_corda3_5 tr d Hrun)
    as [Hrange [_ [_ Hlen]]].
  repeat split; assumption.
Defined.

Section Accounting.

Variable L : librosa.
Variable isfile : string -> bool.

Lemma eh_aviso_linha (c : nat * nat) :
  eh_aviso (linha isfile c) = negb (isfile (caminho c)).
Proof. unfold linha. destruct (isfile (caminho c)); reflexivity. Qed.

Lemma avisos_mais_presentes (cs : list (nat * nat)) :
  (length (filter eh_aviso (map (linha isfile) cs))
   + length (filter (fun c => isfile (caminho c)) cs) = length cs)%nat.
Proof.
  induction cs as [|c cs IH]; cbn [map filter length]; [reflexivity|].
  rewrite eh_aviso_linha. destruct (isfile (caminho c)); cbn [negb length]; lia.
Qed.

Lemma avisos_sao_ausentes (cs : list (nat * nat)) :
  length (filter eh_aviso (map (linha isfile) cs))
  = length (filter (fun c => negb (isfile (caminho c))) cs).
Proof.
  induction cs as [|c cs IH]; cbn [map filter length]; [reflexivity|].
  rewrite eh_aviso_linha. destruct (isfile (caminho c)); cbn [negb length]; lia.
Qed.

Lemma run_ok_accounting (cs : list (nat * nat)) (tr : list event) (d : dataset) :
  for_each cs (corpo L isfile) vazio = (tr, Ok d) ->
  length (filter eh_aviso tr)
  = length (filter (fun c => negb (isfile (caminho c))) cs) /\
  (length (filter eh_aviso tr) + length (y_labels d) = length cs)%nat /\
  (length (filter eh_aviso tr) + length (X_fft_list d) = length cs)%nat /\
  (length (filter eh_aviso tr) + length (X_mel_list d) = length cs)%nat.
Proof.
  intros Hrun.
  destruct (run_ok_vazio L isfile cs tr d Hrun) as [-> [rows [Hrows [Hfft [Hmel Hlab]]]]].
  pose proof (Forall2_length Hrows) as Hlen.
  pose proof (avisos_mais_presentes cs) as Hsum.
  rewrite Hfft, Hmel, Hlab, !length_map, <- Hlen.
  split; [apply avisos_sao_ausentes | repeat split; exact Hsum].
Qed.

(** Where an aborted loop stopped. *)
Lemma run_raise_inv (cs : list (nat * nat)) :
  forall d tr e,
    for_each cs (corpo L isfile) d = (tr, Raise e) ->
    exists pre c post,
      cs = pre ++ c :: post /\
      isfile (caminho c) = true /\
      extrair L (fst c) (snd c) = Raise e /\
      tr = map (linha isfile) pre ++ [Print (processando (caminho c))] /\
      (forall c', In c' pre -> isfile (caminho c') = true ->
                  exists row, extrair L (fst c') (snd c') = Ok row).
Proof.
  induction cs as [|c cs IH]; intros d tr e Hrun; cbn [for_each] in Hrun;
    [discriminate|].
  destruct (isfile (caminho c)) eqn:Hc.
  - rewrite (corpo_presente L isfile d c Hc) in Hrun.
    destruct (extrair L (fst c) (snd c)) as [row|e0] eqn:Hrow.
    + cbn [bind] in Hrun.
      destruct (for_each cs (corpo L isfile) (acrescentar d (fst c) row))
        as [tr' r] eqn:Hrest.
      injection Hrun as <- ->.
      destruct (IH _ _ _ Hrest) as [pre [c0 [post [-> [Hc0 [He [-> Hpre]]]]]]].
      exists (c :: pre), c0, post. repeat split; auto.
      * cbn [map app]. now rewrite (linha_presente isfile c Hc).
      * intros c' [<-|Hin] Hc'; [eauto | now apply Hpre].
    + cbn [bind] in Hrun. injection Hrun as <- <-.
      exists [], c, cs. repeat split; auto. intros c' [].
  - rewrite (corpo_ausente L isfile d c Hc) in Hrun. cbn [bind] in Hrun.
    destruct (for_each cs (corpo L isfile) d) as [tr' r] eqn:Hrest.
    injection Hrun as <- ->.
    destruct (IH _ _ _ Hrest) as [pre [c0 [post [-> [Hc0 [He [-> Hpre]]]]]]].
    exists (c :: pre), c0, post. repeat split; auto.
    + cbn [map app]. now rewrite (linha_ausente isfile c Hc).
    + intros c' [<-|Hin] Hc'; [congruence | now apply Hpre].
Qed.

End Accounting.

(** X10: in a run whose loop reaches its end, every expected name is
    accounted for once: the number of warning lines is the number of
    absent expected files, and warnings plus samples make 180. *)
Theorem warnings_plus_samples_is_180 (L : librosa) (isfile : string -> bool)
        (tr : list event) (d : dataset) :
  main_loop L isfile = (tr, Ok d) ->
  length (filter eh_aviso tr)
  = length (filter (fun c => negb (isfile (caminho c))) candidatos) /\
  (length (filter eh_aviso tr) + length (y_labels d) = 180)%nat /\
  (length (filter eh_aviso tr) + length (X_fft_list d) = 180)%nat /\
  (length (filter eh_aviso tr) + length (X_mel_list d) = 180)%nat.
Proof.
  intros Hrun. rewrite main_loop_candidatos in Hrun.
  destruct (run_ok_accounting L isfile candidatos tr d Hrun) as [H0 [H1 [H2 H3]]].
  split; [exact H0|].
  split; [exact (eq_trans H1 length_candidatos)|].
  split; [exact (eq_trans H2 length_candidatos) | exact (eq_trans H3 length_candidatos)].
Qed.

Lemma warnings_plus_samples_is_180_witness :
  exists tr d,
    main_loop librosa_exemplo so_corda3_5 = (tr, Ok d) /\
    (length (filter eh_aviso tr) + length (y_labels d) = 180)%nat.
Proof.
  destruct (main_loop_exemplo so_corda3_5) as [tr [d Hrun]].
  exists tr, d. split; [exact Hrun|].
  now destruct (warnings_plus_samples_is_180 librosa_exemplo so_corda3_5 tr d Hrun)
    as [_ [H _]].
Defined.

(** X11: a run writes all three files or none.  Either it ends with an
    uncaught exception and has written nothing, or it ends normally and
    has written exactly [X_fft.npy], [X_mel.npy] and [y_labels.npy], once
    each and in this order. *)
Theorem saves_are_all_or_nothing (L : librosa) (isfile : string -> bool) :
  (exists tr e, script L isfile = (tr, Raise e) /\ saved tr = []) \/
  (exists tr X_fft X_mel y,
     script L isfile = (tr, Ok tt) /\
     saved tr = [("X_fft.npy"%string, X_fft); ("X_mel.npy"%string, X_mel);
                 ("y_labels.npy"%string, y)]).
Proof.
  pose proof (run_no_save L isfile candidatos vazio) as Hns.
  rewrite <- main_loop_candidatos in Hns.
  destruct (main_loop L isfile) as [tr [d|e]] eqn:Hloop; cbn [fst] in Hns.
  - destruct (np_array_rows (X_fft_list d)) as [X_fft|e] eqn:Hfft.
    + destruct (np_array_rows (X_mel_list d)) as [X_mel|e] eqn:Hmel.
      * right. eexists _, X_fft, X_mel, _.
        split; [exact (script_ok L isfile tr d _ _ Hloop Hfft Hmel)|].
        now apply (saved_script_ok L isfile tr d).
      * left. exists tr, e. split; [|now apply printed_no_save_nil].
        unfold script. rewrite Hloop; cbn [bind]. rewrite Hfft; cbn [bind lift].
        rewrite Hmel; cbn [bind lift]. now rewrite app_nil_r.
    + left. exists tr, e. split; [|now apply printed_no_save_nil].
      unfold script. rewrite Hloop; cbn [bind]. rewrite Hfft; cbn [bind lift].
      now rewrite app_nil_r.
  - left. exists tr, e. split; [now apply script_raise | now apply printed_no_save_nil].
Qed.

(** X12: when the loop is aborted, the exception is the one raised while
    the steps 1 to 3 ran on one present expected file; every present file
    before it was processed, and the last line printed is the progress
    line of that file, so the output names the file that stopped the
    run. *)
Theorem abort_names_failing_file (L : librosa) (isfile : string -> bool)
        (tr : list event) (e : exn) :
  main_loop L isfile = (tr, Raise e) ->
  script L isfile = (tr, Raise e) /\
  exists pre c post,
    candidatos = pre ++ c :: post /\
    isfile (caminho c) = true /\
    extrair L (fst c) (snd c) = Raise e /\
    tr = map (linha isfile) pre ++ [Print (processando (caminho c))] /\
    (forall c', In c' pre -> isfile (caminho c') = true ->
                exists row, extrair L (fst c') (snd c') = Ok row).
Proof.
  intros Hrun. split; [now apply script_raise|].
  rewrite main_loop_candidatos in Hrun.
  exact (run_raise_inv L isfile candidatos vazio tr e Hrun).
Qed.

Lemma abort_names_failing_file_witness :
  exists tr e pre c post,
    script librosa_corrompido so_corda3_5 = (tr, Raise e) /\
    candidatos = pre ++ c :: post /\
    so_corda3_5 (caminho c) = true /\
    tr = map (linha so_corda3_5) pre ++ [Print (processando (caminho c))].
Proof.
  destruct (run_raise librosa_corrompido so_corda3_5 candidatos vazio (3, 5)%nat
              (LibrosaError "NoBackendError")) as [tr [e Hrun]];
    [apply in_candidatos; lia | reflexivity | reflexivity |].
  rewrite <- main_loop_candidatos in Hrun.
  destruct (abort_names_failing_file librosa_corrompido so_corda3_5 tr e Hrun)
    as [Hscript [pre [c [post [Hsplit [Hc [_ [Htr _]]]]]]]].
  exists tr, e, pre, c, post. repeat split; assumption.
Defined.

(** X13: the three lists only grow, and in step.  Over any stretch of
    candidate names, from any state of the lists, a loop that gets through
    the stretch leaves the earlier entries of each list in place and
    appends the same number of entries to each, one per present file of
    the stretch; lists of equal length stay of equal length. *)
Theorem lists_grow_in_step (L : librosa) (isfile : string -> bool)
        (cs : list (nat * nat)) (d d' : dataset) (tr : list event) :
  for_each cs (corpo L isfile) d = (tr, Ok d') ->
  let k := length (filter (fun c => isfile (caminho c)) cs) in
  firstn (length (X_fft_list d)) (X_fft_list d') = X_fft_list d /\
  firstn (length (X_mel_list d)) (X_mel_list d') = X_mel_list d /\
  firstn (length (y_labels d)) (y_labels d') = y_labels d /\
  length (X_fft_list d') = (length (X_fft_list d) + k)%nat /\
  length (X_mel_list d') = (length (X_mel_list d) + k)%nat /\
  length (y_labels d') = (length (y_labels d) + k)%nat.
Proof.
  intros Hrun k.
  destruct (run_ok L isfile cs d tr d' Hrun) as [_ [rows [Hrows [Hfft [Hmel Hlab]]]]].
  pose proof (Forall2_length Hrows) as Hlen. fold k in Hlen.
  assert (Hfirst : forall (A : Type) (l l' : list A), firstn (length l) (l ++ l') = l).
  { intros A l l'. rewrite firstn_app, firstn_all, Nat.sub_diag.
    cbn [firstn]. apply app_nil_r. }
  rewrite Hfft, Hmel, Hlab, !Hfirst, !length_app, !length_map.
  fold k. rewrite <- Hlen. repeat split; reflexivity.
Qed.

Lemma lists_grow_in_step_witness :
  exists tr d',
    for_each [(3, 5)%nat] (corpo librosa_exemplo so_corda3_5) vazio = (tr, Ok d') /\
    length (X_fft_list d') = 1%nat /\
    length (X_mel_list d') = 1%nat /\
    length (y_labels d') = 1%nat.
Proof.
  destruct (run_total librosa_exemplo so_corda3_5 [(3, 5)%nat]
              (fun c _ _ => extrair_exemplo (fst c) (snd c)) vazio) as [tr [d' Hrun]].
  exists tr, d'. split; [exact Hrun|].
  destruct (lists_grow_in_step librosa_exemplo so_corda3_5 _ _ _ _ Hrun)
    as [_ [_ [_ [Hfft [Hmel Hlab]]]]].
  repeat split; assumption.
Defined.

(** What [extrair] yields under librosa's row counts. *)
Lemma extrair_features (L : librosa) (n m : nat) (row : list R * list R) :
  librosa_shapes L -> extrair L n m = Ok row ->
  (length (fst row) = 1025%nat /\ Forall (fun v => -80 <= v <= 0) (fst row) /\
   In 0 (fst row)) /\
  (length (snd row) = 40%nat /\ Forall (fun v => -80 <= v <= 0) (snd row) /\
   In 0 (snd row)).
Proof.
  intros HL Hrow. pose proof (extrair_lengths L n m row HL Hrow) as [Hl1 Hl2].
  revert Hrow. unfold extrair.
  destruct (carregar_limpar_audio L (filepath n m) SR 40) as [[y sr]|e];
    [|discriminate].
  cbn [rbind].
  destruct (espectro_fft_medio L y sr N_FFT HOP_LENGTH) as [[freqs fft_db]|e] eqn:Hfft;
    [|discriminate].
  cbn [rbind].
  destruct (espectro_mel_medio L y sr N_FFT HOP_LENGTH N_MELS) as [[mf mel_db]|e] eqn:Hmel;
    [|discriminate].
  cbn [rbind]. intros [= <-]. cbn [fst snd] in *. split.
  - split; [assumption|].
    destruct (stft L y N_FFT HOP_LENGTH) as [X|e] eqn:HX.
    + destruct (espectro_fft_medio_eq L y sr _ _ X HX (stft_nonempty L HL _ _ _ _ HX))
        as [ref [Href Heq]].
      rewrite Heq in Hfft. injection Hfft as _ <-.
      apply np_max_is_max in Href.
      split; [now apply map_db_of_bounds | exact (proj1 (map_db_of_is_max _ _ Href))].
    + unfold espectro_fft_medio in Hfft. rewrite HX in Hfft. discriminate.
  - split; [assumption|].
    destruct (melspectrogram L y sr N_FFT HOP_LENGTH N_MELS 2) as [S_mel|e] eqn:HS.
    + destruct (espectro_mel_medio_eq L y sr _ _ _ S_mel HS
                  (mel_nonempty L HL _ _ _ _ _ _ HS)) as [ref [Href Heq]].
      rewrite Heq in Hmel. injection Hmel as _ <-.
      apply np_max_is_max in Href.
      split; [now apply map_db_of_bounds | exact (proj1 (map_db_of_is_max _ _ Href))].
    + unfold espectro_mel_medio in Hmel. rewrite HS in Hmel. discriminate.
Qed.

(** X14: with librosa's row counts, every row collected by a loop that
    ran to its end is a well-formed feature vector: each linear row has
    1025 values and each Mel row 40, all between -80 and 0, and every row
    contains the value 0 (its loudest bin). *)
Theorem collected_rows_are_well_formed (L : librosa) (isfile : string -> bool)
        (tr : list event) (d : dataset) :
  librosa_shapes L ->
  main_loop L isfile = (tr, Ok d) ->
  Forall (fun r => length r = 1025%nat /\ Forall (fun v => -80 <= v <= 0) r /\ In 0 r)
         (X_fft_list d) /\
  Forall (fun r => length r = 40%nat /\ Forall (fun v => -80 <= v <= 0) r /\ In 0 r)
         (X_mel_list d).
Proof.
  intros HL Hrun.
  destruct (main_loop_ok L isfile tr d Hrun) as [_ [rows [Hrows [Hfft [Hmel _]]]]].
  assert (Hall : forall row, In row rows ->
            (length (fst row) = 1025%nat /\ Forall (fun v => -80 <= v <= 0) (fst row) /\
             In 0 (fst row)) /\
            (length (snd row) = 40%nat /\ Forall (fun v => -80 <= v <= 0) (snd row) /\
             In 0 (snd row))).
  { intros row Hrow. destruct (Forall2_In_r _ _ _ row Hrows Hrow) as [c [_ Hc]].
    exact (extrair_features L _ _ row HL Hc). }
  rewrite Hfft, Hmel. split; apply Forall_forall; intros r Hr;
    apply in_map_iff in Hr as [row [<- Hrow]]; now apply Hall.
Qed.

Lemma collected_rows_are_well_formed_witness :
  exists tr d,
    main_loop librosa_exemplo so_corda3_5 = (tr, Ok d) /\
    Forall (fun r => length r = 1025%nat /\ Forall (fun v => -80 <= v <= 0) r /\ In 0 r)
           (X_fft_list d) /\
    Forall (fun r => length r = 40%nat /\ Forall (fun v => -80 <= v <= 0) r /\ In 0 r)
           (X_mel_list d).
Proof.
  destruct (main_loop_exemplo so_corda3_5) as [tr [d Hrun]].
  exists tr, d. split; [exact Hrun|].
  exact (collected_rows_are_well_formed librosa_exemplo so_corda3_5 tr d
           librosa_exemplo_shapes Hrun).
Defined.

(** * What the output does not depend on *)

Section UnusedAxes.

Variable L : librosa.
Variable mf : nat -> R -> R -> list R.

Lemma carregar_limpar_audio_com_mel (path : string) (sr : Z) (top_db : R) :
  carregar_limpar_audio (com_mel_frequencies L mf) path sr top_db
  = carregar_limpar_audio L path sr top_db.
Proof. reflexivity. Qed.

Lemma espectro_fft_medio_com_mel (y : list R) (sr : Z) (n_fft hop : nat) :
  espectro_fft_medio (com_mel_frequencies L mf) y sr n_fft hop
  = espectro_fft_medio L y sr n_fft hop.
Proof. reflexivity. Qed.

(** Only the first component of what [espectro_mel_medio] returns sees
    [mel_frequencies]. *)
Lemma espectro_mel_medio_com_mel (y : list R) (sr : Z) (n_fft hop n_mels : nat) :
  espectro_mel_medio (com_mel_frequencies L mf) y sr n_fft hop n_mels
  = match espectro_mel_medio L y sr n_fft hop n_mels with
    | Ok (_, db) => Ok (mf n_mels 0 (IZR sr / 2), db)
    | Raise e => Raise e
    end.
Proof.
  unfold espectro_mel_medio. cbn [melspectrogram mel_frequencies com_mel_frequencies].
  destruct (melspectrogram L y sr n_fft hop n_mels 2) as [S_mel|e]; [|reflexivity].
  cbn [rbind].
  destruct (power_to_db (np_mean_axis1 S_mel) amin_default top_db_default);
    reflexivity.
Qed.

Lemma extrair_com_mel (n m : nat) :
  extrair (com_mel_frequencies L mf) n m = extrair L n m.
Proof.
  unfold extrair. rewrite carregar_limpar_audio_com_mel.
  destruct (carregar_limpar_audio L (filepath n m) SR 40) as [[y sr]|e]; [|reflexivity].
  cbn [rbind]. rewrite espectro_fft_medio_com_mel.
  destruct (espectro_fft_medio L y sr N_FFT HOP_LENGTH) as [[freqs fft_db]|e];
    [|reflexivity].
  cbn [rbind]. rewrite espectro_mel_medio_com_mel.
  destruct (espectro_mel_medio L y sr N_FFT HOP_LENGTH N_MELS) as [[mel_freqs mel_db]|e];
    reflexivity.
Qed.

Lemma corpo_com_mel (isfile : string -> bool) (d : dataset) (c : nat * nat) :
  corpo (com_mel_frequencies L mf) isfile d c = corpo L isfile d c.
Proof.
  destruct (isfile (caminho c)) eqn:Hc.
  - rewrite !(corpo_presente _ isfile d c Hc). now rewrite extrair_com_mel.
  - now rewrite !(corpo_ausente _ isfile d c Hc).
Qed.

End UnusedAxes.

(** X15: the centre frequencies that [espectro_mel_medio] returns (and the
    frequency vector of [espectro_fft_medio]) are computed and dropped:
    replacing [mel_frequencies] by any other function changes neither a
    printed line nor a saved array, nor whether the run ends normally. *)
Theorem output_ignores_mel_frequencies (L : librosa) (isfile : string -> bool)
        (mf : nat -> R -> R -> list R) :
  script (com_mel_frequencies L mf) isfile = script L isfile.
Proof.
  assert (Hloop : main_loop (com_mel_frequencies L mf) isfile = main_loop L isfile).
  { rewrite !main_loop_candidatos. apply for_each_ext.
    intros d c _. apply corpo_com_mel. }
  unfold script. now rewrite Hloop.
Qed.
